(** * go-bundler-client: a shallow embedding of [client.go]

    The repository is one Go file: an [RpcClient] that wraps a go-ethereum
    [rpc.Client] and exposes one method per ERC-4337 bundler JSON-RPC
    procedure, a wire-shaped [UserOperation] struct, and the conversion
    [ToUserOperation] into the canonical [userop.UserOperation].

    Layout of this development:
    - the Go packages imported by [client.go] that decide what a call
      returns ([encoding/hex], [hexutil], [common], [encoding/json],
      [rpc]) are modelled in modules of the same names;
    - the client itself (section [Client]) is translated method by method;
    - the theorems come last. *)

From Stdlib Require Import ZArith NArith Ascii String List Lia Bool.
From Stdlib.Strings Require Import Byte.
From stdpp Require Import gmap.
Import ListNotations.

Local Open Scope Z_scope.

(** ** Errors

    Go's [error] values that can reach a caller of the client. The
    constructors keep the distinctions the libraries make; the client never
    inspects an error. *)

(** [hexutil]'s [decError] values. *)
Inductive decError : Type :=
  | ErrEmptyString | ErrSyntax | ErrMissingPrefix | ErrOddLength
  | ErrEmptyNumber | ErrLeadingZero | ErrUint64Range | ErrBig256Range.

Inductive error : Type :=
  (* encoding/hex *)
  | InvalidByteError (c : ascii)
  | ErrLength
  (* hexutil *)
  | DecError (e : decError)
  | FixedLengthError (got want : nat) (typname : string)
  (* encoding/json *)
  | UnmarshalTypeError (value : string) (typ : string)
  (* rpc *)
  | ErrNoResult
  | jsonError (code : Z) (message : string)
  | TransportError (reason : string)
  (* an error of a decoder of a third-party result type *)
  | ForeignError (reason : string).

Definition quote : string := String (ascii_of_nat 34) EmptyString.

(** [decError.Error()]. *)
Definition decError_text (e : decError) : string :=
  match e with
  | ErrEmptyString => "empty hex string"
  | ErrSyntax => "invalid hex string"
  | ErrMissingPrefix => "hex string without 0x prefix"
  | ErrOddLength => "hex string of odd length"
  | ErrEmptyNumber => String.append "hex string " (String.append quote (String.append "0x" quote))
  | ErrLeadingZero => "hex number with leading zero digits"
  | ErrUint64Range => "hex number > 64 bits"
  | ErrBig256Range => "hex number > 256 bits"
  end%string.

(** ** Byte strings *)

Definition bytes : Type := list byte.

Definition byte_of_N (n : N) : byte :=
  match Byte.of_N n with Some b => b | None => x00 end.

(** Go's [(value, error)] results of the fallible library functions. *)
Inductive res (A : Type) : Type :=
  | Ok (a : A)
  | Err (e : error).
Arguments Ok {A} a.
Arguments Err {A} e.

(** ** encoding/hex *)
Module hex.

  (** [hextable = "0123456789abcdef"], indexed by a nibble. *)
Definition hextable (n : N) : ascii :=
    if (n <? 10)%N then ascii_of_N (48 + n) else ascii_of_N (87 + n).

  (** [reverseHexTable]: the value of a hexadecimal digit of either case,
      [None] for the table's [0xff] entries. *)
Definition fromHexChar (c : ascii) : option N :=
    let n := N_of_ascii c in
    if ((48 <=? n) && (n <=? 57))%N then Some (n - 48)%N
    else if ((97 <=? n) && (n <=? 102))%N then Some (n - 87)%N
    else if ((65 <=? n) && (n <=? 70))%N then Some (n - 55)%N
    else None.

  (** [hex.Encode]: two lower-case digits per byte, high nibble first. *)
Fixpoint Encode (src : bytes) : string :=
    match src with
    | [] => EmptyString
    | v :: rest =>
        String (hextable (Byte.to_N v / 16))
          (String (hextable (Byte.to_N v mod 16)) (Encode rest))
    end.

  (** [hex.Decode]: decodes pairs of digits from the left and stops at the
      first invalid digit or at a dangling last digit; the bytes decoded
      before the failure are returned with the error, as the Go function
      leaves them in [dst] and reports their number. *)
Fixpoint Decode (src : string) : bytes * option error :=
    match src with
    | EmptyString => ([], None)
    | String p EmptyString =>
        match fromHexChar p with
        | None => ([], Some (InvalidByteError p))
        | Some _ => ([], Some ErrLength)
        end
    | String p (String q rest) =>
        match fromHexChar p, fromHexChar q with
        | None, _ => ([], Some (InvalidByteError p))
        | Some _, None => ([], Some (InvalidByteError q))
        | Some a, Some b =>
            let (out, err) := Decode rest in
            (byte_of_N (a * 16 + b) :: out, err)
        end
    end.

  (** [hex.DecodeString]. *)
Definition DecodeString (s : string) : bytes * option error := Decode s.

End hex.


(** ** hexutil (go-ethereum [common/hexutil]) *)
Module hexutil.

(** [has0xPrefix] / [bytesHave0xPrefix]. *)
Definition has0xPrefix (input : string) : bool :=
  match input with
  | String c0 (String c1 _) =>
      Ascii.eqb c0 "0" && (Ascii.eqb c1 "x" || Ascii.eqb c1 "X")
  | _ => false
  end.

(** [input[2:]]. *)
Definition drop2 (input : string) : string :=
  match input with
  | String _ (String _ rest) => rest
  | _ => EmptyString
  end.

(** [decodeNibble]; [None] is [badNibble]. *)
Definition decodeNibble (c : ascii) : option N := hex.fromHexChar c.

(** [mapError]. *)
Definition mapError (err : error) : error :=
  match err with
  | InvalidByteError _ => DecError ErrSyntax
  | ErrLength => DecError ErrOddLength
  | _ => err
  end.

(** [wrapTypeError]: a [decError] becomes a [json.UnmarshalTypeError], any
    other error is returned as it is. *)
Definition wrapTypeError (err : option error) (typ : string) : option error :=
  match err with
  | Some (DecError e) => Some (UnmarshalTypeError (decError_text e) typ)
  | _ => err
  end.

Definition errNonString (typ : string) : error :=
  UnmarshalTypeError "non-string" typ.

(** [checkText]. *)
Definition checkText (input : string) (wantPrefix : bool) : res string :=
  if (String.length input =? 0)%nat then Ok EmptyString
  else
    let checked :=
      if has0xPrefix input then Ok (drop2 input)
      else if wantPrefix then Err (DecError ErrMissingPrefix)
      else Ok input in
    match checked with
    | Err e => Err e
    | Ok input =>
        if (Nat.modulo (String.length input) 2 =? 0)%nat then Ok input
        else Err (DecError ErrOddLength)
    end.

(** [checkNumberText]. *)
Definition checkNumberText (input : string) : res string :=
  if (String.length input =? 0)%nat then Ok EmptyString
  else if negb (has0xPrefix input) then Err (DecError ErrMissingPrefix)
  else
    let input := drop2 input in
    match input with
    | EmptyString => Err (DecError ErrEmptyNumber)
    | String c rest =>
        if (1 <? String.length input)%nat && Ascii.eqb c "0"
        then Err (DecError ErrLeadingZero)
        else Ok input
    end.

(** The digit loop of [Big.UnmarshalText]. The Go code fills machine words
    from the least significant end, 16 digits to a word, and hands them to
    [big.Int.SetBits]; the integer so built is the base-16 value of the
    digits, accumulated here from the most significant end. [None] is the
    [ErrSyntax] exit on a bad digit. *)
Fixpoint nibbles (raw : string) (acc : N) : option N :=
  match raw with
  | EmptyString => Some acc
  | String c rest =>
      match decodeNibble c with
      | None => None
      | Some nib => nibbles rest (acc * 16 + nib)%N
      end
  end.

(** [Big.UnmarshalText]: the receiver's value [b] is overwritten only on
    success. *)
Definition Big_UnmarshalText (input : string) (b : Z) : Z * option error :=
  match checkNumberText input with
  | Err e => (b, Some e)
  | Ok raw =>
      if (64 <? String.length raw)%nat then (b, Some (DecError ErrBig256Range))
      else
        match nibbles raw 0%N with
        | None => (b, Some (DecError ErrSyntax))
        | Some dec => (Z.of_N dec, None)
        end
  end.

Definition bigT : string := "*hexutil.Big".
Definition bytesT : string := "hexutil.Bytes".

(** [Big.UnmarshalJSON] on the text between the quotes of a JSON string;
    [None] stands for an input that is not a JSON string. *)
Definition Big_UnmarshalJSON (input : option string) (b : Z) : Z * option error :=
  match input with
  | None => (b, Some (errNonString bigT))
  | Some s => let (b', err) := Big_UnmarshalText s b in (b', wrapTypeError err bigT)
  end.

(** [big.Int.Text(16)] of a positive number: lower-case digits, no leading
    zero. The recursion is on fuel; [text16] supplies enough of it. *)
Fixpoint text16_aux (fuel : nat) (n : N) (acc : string) : string :=
  match fuel with
  | O => acc
  | S fuel' =>
      let acc' := String (hex.hextable (n mod 16)) acc in
      if (n / 16 =? 0)%N then acc' else text16_aux fuel' (n / 16) acc'
  end.

Definition text16 (n : N) : string :=
  text16_aux (S (N.to_nat (N.log2 n))) n EmptyString.

(** ["0x" + s]. *)
Definition prefix0x (s : string) : string := String "0" (String "x" s).

(** [EncodeBig]. *)
Definition EncodeBig (bigint : Z) : string :=
  match Z.sgn bigint with
  | 0 => prefix0x "0"
  | Zpos _ => prefix0x (text16 (Z.to_N bigint))
  | Zneg _ => String "-" (prefix0x (text16 (Z.to_N (- bigint))))
  end.

(** [Encode]: [0x] and the lower-case digits of the bytes. *)
Definition Encode (b : bytes) : string := prefix0x (hex.Encode b).

(** [Bytes.UnmarshalText]. *)
Definition Bytes_UnmarshalText (input : string) (b : bytes) : bytes * option error :=
  match checkText input true with
  | Err e => (b, Some e)
  | Ok raw =>
      match hex.Decode raw with
      | (_, Some err) => (b, Some (mapError err))
      | (dec, None) => (dec, None)
      end
  end.

(** [Bytes.UnmarshalJSON]. *)
Definition Bytes_UnmarshalJSON (input : option string) (b : bytes) : bytes * option error :=
  match input with
  | None => (b, Some (errNonString bytesT))
  | Some s => let (b', err) := Bytes_UnmarshalText s b in (b', wrapTypeError err bytesT)
  end.

(** Every character of [raw] is a hexadecimal digit. *)
Fixpoint allNibbles (raw : string) : bool :=
  match raw with
  | EmptyString => true
  | String c rest =>
      match decodeNibble c with None => false | Some _ => allNibbles rest end
  end.

(** [UnmarshalFixedText] into an array of [len] bytes: the array [out] is
    written only after the length and the syntax have been checked. *)
Definition UnmarshalFixedText (typname : string) (input : string) (len : nat) (out : bytes)
  : bytes * option error :=
  match checkText input true with
  | Err e => (out, Some e)
  | Ok raw =>
      if negb (Nat.div (String.length raw) 2 =? len)%nat
      then (out, Some (FixedLengthError (String.length raw) (len * 2) typname))
      else if negb (allNibbles raw) then (out, Some (DecError ErrSyntax))
      else (fst (hex.Decode raw), None)
  end.

(** [UnmarshalFixedJSON]. *)
Definition UnmarshalFixedJSON (typ : string) (input : option string) (len : nat) (out : bytes)
  : bytes * option error :=
  match input with
  | None => (out, Some (errNonString typ))
  | Some s =>
      let (out', err) := UnmarshalFixedText typ s len out in (out', wrapTypeError err typ)
  end.

(** [Big.ToInt]: a conversion between two views of the same pointer; nil
    stays nil. *)
Definition ToInt (b : option Z) : option Z := b.

End hexutil.

(** ** common (go-ethereum [common]) *)
Module common.

Definition HashLength : nat := 32.
Definition AddressLength : nat := 20.

(** A Go array [[n]byte]. *)
Definition fixedBytes (n : nat) : Type := { l : bytes | List.length l = n }.

Definition Hash : Type := fixedBytes HashLength.
Definition Address : Type := fixedBytes AddressLength.

(** [h[:]], the bytes of an array. *)
Definition data {n : nat} (h : fixedBytes n) : bytes := proj1_sig h.

(** The zero values [Hash{}] and [Address{}]. *)
Definition zeroHash : Hash := exist _ (repeat x00 HashLength) eq_refl.
Definition zeroAddress : Address := exist _ (repeat x00 AddressLength) eq_refl.

(** Writing [l] over the whole of an array of [n] bytes; [h] is kept when
    the lengths differ, which the callers below never let happen. *)
Definition store {n : nat} (l : bytes) (h : fixedBytes n) : fixedBytes n :=
  match decide (List.length l = n) with
  | left H => exist _ l H
  | right _ => h
  end.

(** [has0xPrefix]. *)
Definition has0xPrefix (str : string) : bool := hexutil.has0xPrefix str.

(** [Hex2Bytes]: the error of [hex.DecodeString] is dropped, the bytes
    decoded before it are kept. *)
Definition Hex2Bytes (str : string) : bytes := fst (hex.DecodeString str).

(** [FromHex]. *)
Definition FromHex (s : string) : bytes :=
  let s := if has0xPrefix s then hexutil.drop2 s else s in
  let s := if (Nat.modulo (String.length s) 2 =? 1)%nat then String "0" s else s in
  Hex2Bytes s.

(** [SetBytes] on a zero array of [n] bytes: [b] is cropped from the left
    to its last [n] bytes and copied to the end of the array. *)
Definition SetBytes (n : nat) (b : bytes) : bytes :=
  let b := if (n <? List.length b)%nat then skipn (List.length b - n) b else b in
  repeat x00 (n - List.length b) ++ b.

(** [BytesToHash]. *)
Definition BytesToHash (b : bytes) : Hash := store (SetBytes HashLength b) zeroHash.

(** [HexToHash]. *)
Definition HexToHash (s : string) : Hash := BytesToHash (FromHex s).

(** [BytesToAddress] and [HexToAddress]. *)
Definition BytesToAddress (b : bytes) : Address := store (SetBytes AddressLength b) zeroAddress.
Definition HexToAddress (s : string) : Address := BytesToAddress (FromHex s).

Definition hashT : string := "common.Hash".
Definition addressT : string := "common.Address".

(** [Hash.UnmarshalJSON] and [Address.UnmarshalJSON]. *)
Definition Hash_UnmarshalJSON (input : option string) (h : Hash) : Hash * option error :=
  let (out, err) := hexutil.UnmarshalFixedJSON hashT input HashLength (data h) in
  (store out h, err).

Definition Address_UnmarshalJSON (input : option string) (a : Address) : Address * option error :=
  let (out, err) := hexutil.UnmarshalFixedJSON addressT input AddressLength (data a) in
  (store out a, err).

(** [Hash.MarshalText] and [Address.MarshalText]. *)
Definition Hash_MarshalText (h : Hash) : string := hexutil.Encode (data h).
Definition Address_MarshalText (a : Address) : string := hexutil.Encode (data a).

End common.

#[global] Instance byte_eq_dec : EqDecision byte := Byte.byte_eq_dec.

#[global] Instance byte_countable : Countable byte.
Proof.
  refine (inj_countable' Byte.to_N byte_of_N _).
  intros x. unfold byte_of_N. rewrite Byte.of_to_N. reflexivity.
Qed.

(** ** encoding/json: decoded JSON texts and [json.Unmarshal] *)
Module json.

(** The raw result of a response, as the JSON value it denotes. A string
    carries the text between its quotes. *)
#[local] Unset Elimination Schemes.
Inductive value : Type :=
  | JNull
  | JBool (b : bool)
  | JNumber (literal : string)
  | JString (s : string)
  | JArray (elems : list value)
  | JObject (members : list (string * value)).
#[local] Set Elimination Schemes.

(** The [Value] of the [UnmarshalTypeError] for a JSON value of the wrong
    kind. *)
Definition describe (v : value) : string :=
  match v with
  | JNull => "null"
  | JBool _ => "bool"
  | JNumber _ => "number"
  | JString _ => "string"
  | JArray _ => "array"
  | JObject _ => "object"
  end.

(** [isString] of [hexutil], with the text between the quotes. *)
Definition asString (v : value) : option string :=
  match v with
  | JString s => Some s
  | _ => None
  end.

(** ASCII case folding of member names: a member of a JSON object is stored
    in the struct field whose name it equals up to case. *)
Definition lower (c : ascii) : ascii :=
  let n := N_of_ascii c in
  if ((65 <=? n) && (n <=? 90))%N then ascii_of_N (n + 32) else c.

Fixpoint foldName (s : string) : string :=
  match s with
  | EmptyString => EmptyString
  | String c rest => String (lower c) (foldName rest)
  end.

Definition fieldMatch (key name : string) : bool :=
  String.eqb (foldName key) (foldName name).

End json.

(** A Go type that [json.Unmarshal] can decode into: its zero value (what
    [var x T] holds), its name in error messages, and the effect of
    decoding a JSON value into a variable holding [x]: the variable's new
    value and the error. A value with several faults is reported by its
    first one, and decoding stops there; the client passes the error on
    and drops what was decoded. *)
Class Unmarshaler (T : Type) : Type := {
  zero : T;
  goType : string;
  Unmarshal : json.value -> T -> T * option error
}.

(** A Go slice: nil, or a sequence of elements. *)
Inductive slice (T : Type) : Type :=
  | nil_slice
  | mk_slice (elems : list T).
Arguments nil_slice {T}.
Arguments mk_slice {T} elems.

(** [len(s)] and the elements [range s] visits. *)
Definition elems {T : Type} (s : slice T) : list T :=
  match s with
  | nil_slice => []
  | mk_slice l => l
  end.

Definition len {T : Type} (s : slice T) : nat := List.length (elems s).

(** Go's [string]: JSON null has no effect. *)
#[global] Instance string_Unmarshaler : Unmarshaler string := {|
  zero := EmptyString;
  goType := "string";
  Unmarshal v x :=
    match v with
    | json.JNull => (x, None)
    | json.JString s => (s, None)
    | _ => (x, Some (UnmarshalTypeError (json.describe v) "string"))
    end
|}.

(** The types of go-ethereum with an [UnmarshalJSON] method receive every
    JSON value, null included. *)
#[global] Instance Hash_Unmarshaler : Unmarshaler common.Hash := {|
  zero := common.zeroHash;
  goType := common.hashT;
  Unmarshal v h := common.Hash_UnmarshalJSON (json.asString v) h
|}.

#[global] Instance Address_Unmarshaler : Unmarshaler common.Address := {|
  zero := common.zeroAddress;
  goType := common.addressT;
  Unmarshal v a := common.Address_UnmarshalJSON (json.asString v) a
|}.

(** [hexutil.Big], a [big.Int]. *)
#[global] Instance Big_Unmarshaler : Unmarshaler Z := {|
  zero := 0;
  goType := "hexutil.Big";
  Unmarshal v b := hexutil.Big_UnmarshalJSON (json.asString v) b
|}.

(** [hexutil.Bytes]. *)
#[global] Instance Bytes_Unmarshaler : Unmarshaler bytes := {|
  zero := [];
  goType := hexutil.bytesT;
  Unmarshal v b := hexutil.Bytes_UnmarshalJSON (json.asString v) b
|}.

(** A pointer [*T] inside a struct or a slice: JSON null sets it to nil;
    any other value is decoded into the pointee, allocated when the
    pointer is nil. *)
#[global] Instance ptr_Unmarshaler (T : Type) `{Unmarshaler T} : Unmarshaler (option T) := {|
  zero := None;
  goType := String.append "*" (goType (T := T));
  Unmarshal v p :=
    match v with
    | json.JNull => (None, None)
    | _ =>
        let (x, err) := Unmarshal v (match p with Some x => x | None => zero end) in
        (Some x, err)
    end
|}.

(** The elements of a JSON array, each decoded into a fresh element. *)
Fixpoint unmarshalElems {T : Type} `{Unmarshaler T} (vs : list json.value) : list T * option error :=
  match vs with
  | [] => ([], None)
  | v :: rest =>
      match Unmarshal v zero with
      | (x, Some err) => ([x], Some err)
      | (x, None) => let (xs, err) := unmarshalElems rest in (x :: xs, err)
      end
  end.

(** A slice [[]T]: JSON null sets it to nil, an array replaces its
    elements. *)
#[global] Instance slice_Unmarshaler (T : Type) `{Unmarshaler T} : Unmarshaler (slice T) := {|
  zero := nil_slice;
  goType := String.append "[]" (goType (T := T));
  Unmarshal v s :=
    match v with
    | json.JNull => (nil_slice, None)
    | json.JArray vs => let (xs, err) := unmarshalElems vs in (mk_slice xs, err)
    | _ => (s, Some (UnmarshalTypeError (json.describe v) (String.append "[]" (goType (T := T)))))
    end
|}.

(** ** userop (stackup-bundler [pkg/userop]): the canonical user operation,
    with the fields [ToUserOperation] fills. The [*big.Int] fields are
    pointers and may be nil. *)
Module userop.

Record UserOperation : Type := mkUserOperation {
  Sender : common.Address;
  Nonce : option Z;
  InitCode : bytes;
  CallData : bytes;
  CallGasLimit : option Z;
  VerificationGasLimit : option Z;
  PreVerificationGas : option Z;
  MaxFeePerGas : option Z;
  MaxPriorityFeePerGas : option Z;
  PaymasterAndData : bytes;
  Signature : bytes
}.

End userop.

(** ** The wire shape of a user operation ([client.go], [UserOperation]) *)

Record UserOperation : Type := mkUserOperation {
  Sender : common.Address;
  Nonce : option Z;                  (* pointer to hexutil.Big *)
  InitCode : bytes;                  (* hexutil.Bytes *)
  CallData : bytes;
  CallGasLimit : option Z;
  VerificationGasLimit : option Z;
  PreVerificationGas : option Z;
  MaxFeePerGas : option Z;
  MaxPriorityFeePerGas : option Z;
  PaymasterAndData : bytes;
  Signature :bytes
}.

(** [ToUserOperation], on a possibly nil receiver. *)
Definition ToUserOperation (uo : option UserOperation) : option userop.UserOperation :=
  match uo with
  | None => None
  | Some uo =>
      Some {|
        userop.Sender := Sender uo;
        userop.Nonce := hexutil.ToInt (Nonce uo);
        userop.InitCode := InitCode uo;
        userop.CallData := CallData uo;
        userop.CallGasLimit := hexutil.ToInt (CallGasLimit uo);
        userop.VerificationGasLimit := hexutil.ToInt (VerificationGasLimit uo);
        userop.PreVerificationGas := hexutil.ToInt (PreVerificationGas uo);
        userop.MaxFeePerGas := hexutil.ToInt (MaxFeePerGas uo);
        userop.MaxPriorityFeePerGas := hexutil.ToInt (MaxPriorityFeePerGas uo);
        userop.PaymasterAndData := PaymasterAndData uo;
        userop.Signature := Signature uo
      |}
  end.

(** [OverrideAccount]. *)
Record OverrideAccount : Type := mkOverrideAccount {
  OverrideNonce : option N;                               (* pointer to hexutil.Uint64 *)
  OverrideCode : option bytes;                            (* pointer to hexutil.Bytes *)
  OverrideBalance : option Z;                             (* pointer to hexutil.Big *)
  OverrideState : option (gmap common.Hash common.Hash);
  OverrideStateDiff : option (gmap common.Hash common.Hash)
}.

(** *** Decoding the wire shape

    [json.Unmarshal] into the struct: each member of the JSON object, in
    order, is decoded into the field that carries its name in the [json]
    tag; members with other names are skipped. *)

Definition decodeField {T : Type} `{Unmarshaler T} (v : json.value) (old : T)
    (set : T -> UserOperation) : UserOperation * option error :=
  let (x, err) := Unmarshal v old in (set x, err).

Definition setField (key : string) (v : json.value) (uo : UserOperation)
  : UserOperation * option error :=
  let '(mkUserOperation sender nonce initCode callData callGasLimit verificationGasLimit
          preVerificationGas maxFeePerGas maxPriorityFeePerGas paymasterAndData signature) := uo in
  if json.fieldMatch key "sender" then
    decodeField v sender (fun x =>
      mkUserOperation x nonce initCode callData callGasLimit verificationGasLimit
        preVerificationGas maxFeePerGas maxPriorityFeePerGas paymasterAndData signature)
  else if json.fieldMatch key "nonce" then
    decodeField v nonce (fun x =>
      mkUserOperation sender x initCode callData callGasLimit verificationGasLimit
        preVerificationGas maxFeePerGas maxPriorityFeePerGas paymasterAndData signature)
  else if json.fieldMatch key "initCode" then
    decodeField v initCode (fun x =>
      mkUserOperation sender nonce x callData callGasLimit verificationGasLimit
        preVerificationGas maxFeePerGas maxPriorityFeePerGas paymasterAndData signature)
  else if json.fieldMatch key "callData" then
    decodeField v callData (fun x =>
      mkUserOperation sender nonce initCode x callGasLimit verificationGasLimit
        preVerificationGas maxFeePerGas maxPriorityFeePerGas paymasterAndData signature)
  else if json.fieldMatch key "callGasLimit" then
    decodeField v callGasLimit (fun x =>
      mkUserOperation sender nonce initCode callData x verificationGasLimit
        preVerificationGas maxFeePerGas maxPriorityFeePerGas paymasterAndData signature)
  else if json.fieldMatch key "verificationGasLimit" then
    decodeField v verificationGasLimit (fun x =>
      mkUserOperation sender nonce initCode callData callGasLimit x
        preVerificationGas maxFeePerGas maxPriorityFeePerGas paymasterAndData signature)
  else if json.fieldMatch key "preVerificationGas" then
    decodeField v preVerificationGas (fun x =>
      mkUserOperation sender nonce initCode callData callGasLimit verificationGasLimit
        x maxFeePerGas maxPriorityFeePerGas paymasterAndData signature)
  else if json.fieldMatch key "maxFeePerGas" then
    decodeField v maxFeePerGas (fun x =>
      mkUserOperation sender nonce initCode callData callGasLimit verificationGasLimit
        preVerificationGas x maxPriorityFeePerGas paymasterAndData signature)
  else if json.fieldMatch key "maxPriorityFeePerGas" then
    decodeField v maxPriorityFeePerGas (fun x =>
      mkUserOperation sender nonce initCode callData callGasLimit verificationGasLimit
        preVerificationGas maxFeePerGas x paymasterAndData signature)
  else if json.fieldMatch key "paymasterAndData" then
    decodeField v paymasterAndData (fun x =>
      mkUserOperation sender nonce initCode callData callGasLimit verificationGasLimit
        preVerificationGas maxFeePerGas maxPriorityFeePerGas x signature)
  else if json.fieldMatch key "signature" then
    decodeField v signature (fun x =>
      mkUserOperation sender nonce initCode callData callGasLimit verificationGasLimit
        preVerificationGas maxFeePerGas maxPriorityFeePerGas paymasterAndData x)
  else (uo, None).

Fixpoint decodeMembers (members : list (string * json.value)) (uo : UserOperation)
  : UserOperation * option error :=
  match members with
  | [] => (uo, None)
  | (key, v) :: rest =>
      match setField key v uo with
      | (uo', Some err) => (uo', Some err)
      | (uo', None) => decodeMembers rest uo'
      end
  end.

Definition zeroUserOperation : UserOperation :=
  mkUserOperation common.zeroAddress None [] [] None None None None None [] [].

#[global] Instance UserOperation_Unmarshaler : Unmarshaler UserOperation := {|
  zero := zeroUserOperation;
  goType := "bundler_client.UserOperation";
  Unmarshal v uo :=
    match v with
    | json.JNull => (uo, None)
    | json.JObject members => decodeMembers members uo
    | _ => (uo, Some (UnmarshalTypeError (json.describe v) "bundler_client.UserOperation"))
    end
|}.

(** ** rpc (go-ethereum [rpc]): what a call sends and what comes back *)

(** The positional arguments the client passes to [CallContext]. *)
Inductive arg : Type :=
  | ArgUserOperation (op : option userop.UserOperation)   (* a pointer *)
  | ArgAddress (a : common.Address)
  | ArgHash (h : common.Hash)
  | ArgString (s : string)
  | ArgOverrides (stateOverrides : gmap common.Address OverrideAccount).

(** The outcome of sending a request and waiting for its response: the
    send or the wait failed (network error, timeout, cancellation of the
    context), or a response message arrived, with its [Error] and its
    [Result] members; an empty [Result] is [None]. *)
Inductive response : Type :=
  | Failed (err : error)
  | Reply (respError : option (Z * string)) (respResult : option json.value).

(** ** The client ([client.go]) *)
Section Client.

(** The world outside the process: the network and the servers reached
    through it. Nothing is assumed about how it answers. *)
Variable World : Type.
(** [context.Context] values, and [context.Background()]. *)
Variable Ctx : Type.
Variable Background : Ctx.
(** [*rpc.Client], a handle on a connection. *)
Variable rpcClient : Type.
(** [rpc.DialContext]. *)
Variable rpcDialContext : Ctx -> string -> World -> res rpcClient * World.
(** One exchange on a connection: the request goes out, the world moves on
    and an outcome comes back. *)
Variable exchange : rpcClient -> Ctx -> string -> list arg -> World -> response * World.

(** The result types of the stackup-bundler packages [gas] and [filter]:
    the client declares a variable of the type, lets [json.Unmarshal] fill
    it and returns it. *)
Variables GasEstimates UserOperationReceipt HashLookupResult : Type.
Context {GasEstimates_Unmarshaler : Unmarshaler GasEstimates}.
Context {UserOperationReceipt_Unmarshaler : Unmarshaler UserOperationReceipt}.
Context {HashLookupResult_Unmarshaler : Unmarshaler HashLookupResult}.

(** [RpcClient]. *)
Record RpcClient : Type := mkRpcClient { c : rpcClient }.

(** A call of [CallContext], as the transport sees it. *)
Record call : Type := mkCall {
  callCtx : Ctx;
  callMethod : string;
  callArgs : list arg
}.

(** What a method of the client can read or write: the struct its receiver
    points to, the world, and the log of the calls made so far. *)
Record State : Type := mkState {
  self : RpcClient;
  world : World;
  calls : list call
}.

Definition M (A : Type) : Type := State -> A * State.

Definition ret {A : Type} (a : A) : M A := fun st => (a, st).

Definition bind {A B : Type} (m : M A) (k : A -> M B) : M B :=
  fun st => let (a, st') := m st in k a st'.

Notation "'let*' x ':=' m 'in' k" := (bind m (fun x => k))
  (at level 10, x name, m at level 100, k at level 200).

(** Sending the request on the receiver's connection and waiting for the
    response ([newMessage], [send] or [sendHTTP], [op.wait]). *)
Definition roundTrip (ctx : Ctx) (method : string) (args : list arg) : M response :=
  fun st =>
    let (resp, w) := exchange (c (self st)) ctx method args (world st) in
    (resp, mkState (self st) w (calls st ++ [mkCall ctx method args])).

(** The state one call leaves: the receiver's struct as it was, the world
    as the exchange left it, one more call in the log. *)
Definition after (st : State) (ctx : Ctx) (method : string) (args : list arg) : State :=
  mkState (self st) (snd (exchange (c (self st)) ctx method args (world st)))
    (calls st ++ [mkCall ctx method args]).

(** [rpc.Client.CallContext] with a pointer to a variable holding
    [result]: the variable's value after the call, and the error. *)
Definition CallContext {T : Type} `{Unmarshaler T} (ctx : Ctx) (result : T)
    (method : string) (args : list arg) : M (T * option error) :=
  let* resp := roundTrip ctx method args in
  match resp with
  | Failed err => ret (result, Some err)
  | Reply (Some (code, message)) _ => ret (result, Some (jsonError code message))
  | Reply None None => ret (result, Some ErrNoResult)
  | Reply None (Some raw) => ret (Unmarshal raw result)
  end.

(** [CallContext] with a nil [result]: the response's result is dropped. *)
Definition CallContextNil (ctx : Ctx) (method : string) (args : list arg) : M (option error) :=
  let* resp := roundTrip ctx method args in
  match resp with
  | Failed err => ret (Some err)
  | Reply (Some (code, message)) _ => ret (Some (jsonError code message))
  | Reply None None => ret (Some ErrNoResult)
  | Reply None (Some _) => ret None
  end.

Definition NewClient (c : rpcClient) : RpcClient := mkRpcClient c.

Definition DialContext (ctx : Ctx) (rawurl : string) (w : World)
  : (option RpcClient * option error) * World :=
  match rpcDialContext ctx rawurl w with
  | (Err err, w') => ((None, Some err), w')
  | (Ok c, w') => ((Some (NewClient c), None), w')
  end.

Definition Dial (rawurl : string) (w : World) : (option RpcClient * option error) * World :=
  DialContext Background rawurl w.

Definition SendUserOperation (ctx : Ctx) (op : option userop.UserOperation)
    (entryPoint : common.Address) : M (common.Hash * option error) :=
  let result : common.Hash := zero in
  let* r :=
    CallContext ctx result "eth_sendUserOperation" [ArgUserOperation op; ArgAddress entryPoint] in
  let (result, err) := r in
  ret (result, err).

Definition EstimateUserOperationGas (ctx : Ctx) (op : option userop.UserOperation)
    (entryPoint : common.Address) : M (option GasEstimates * option error) :=
  let estimate : GasEstimates := zero in
  let* r :=
    CallContext ctx estimate "eth_estimateUserOperationGas"
      [ArgUserOperation op; ArgAddress entryPoint] in
  let (estimate, err) := r in
  match err with
  | Some err => ret (None, Some err)
  | None => ret (Some estimate, None)
  end.

Definition EstimateUserOperationGasWithOverrides (ctx : Ctx) (op : option userop.UserOperation)
    (entryPoint : common.Address) (stateOverrides : gmap common.Address OverrideAccount)
  : M (option GasEstimates * option error) :=
  let estimate : GasEstimates := zero in
  let* r :=
    CallContext ctx estimate "eth_estimateUserOperationGas"
      [ArgUserOperation op; ArgAddress entryPoint; ArgOverrides stateOverrides] in
  let (estimate, err) := r in
  match err with
  | Some err => ret (None, Some err)
  | None => ret (Some estimate, None)
  end.

Definition GetUserOperationReceipt (ctx : Ctx) (userOpHash : common.Hash)
  : M (option UserOperationReceipt * option error) :=
  let receipt : UserOperationReceipt := zero in
  let* r :=
    CallContext ctx receipt "eth_getUserOperationReceipt" [ArgHash userOpHash] in
  let (receipt, err) := r in
  match err with
  | Some err => ret (None, Some err)
  | None => ret (Some receipt, None)
  end.

Definition GetUserOperationByHash (ctx : Ctx) (userOpHash : common.Hash)
  : M (option HashLookupResult * option error) :=
  let op : HashLookupResult := zero in
  let* r :=
    CallContext ctx op "eth_getUserOperationByHash" [ArgHash userOpHash] in
  let (op, err) := r in
  match err with
  | Some err => ret (None, Some err)
  | None => ret (Some op, None)
  end.

Definition SupportedEntryPoints (ctx : Ctx) : M (slice common.Address * option error) :=
  let entryPoints : slice common.Address := zero in
  let* r := CallContext ctx entryPoints "eth_supportedEntryPoints" [] in
  let (entryPoints, err) := r in
  match err with
  | Some err => ret (nil_slice, Some err)
  | None => ret (entryPoints, None)
  end.

Definition ChainId (ctx : Ctx) : M (option Z * option error) :=
  let result : Z := zero in
  let* r := CallContext ctx result "eth_chainId" [] in
  let (result, err) := r in
  match err with
  | Some err => ret (None, Some err)
  | None => ret (Some result, None)
  end.

Definition BundlerClearState (ctx : Ctx) : M (option error) :=
  CallContextNil ctx "debug_bundler_clearState" [].

(** The loop [for i, op := range ops { uops[i] = op.ToUserOperation() }],
    from index [i] on. *)
Fixpoint convertFrom (i : nat) (ops : list (option UserOperation))
    (uops : list (option userop.UserOperation)) : list (option userop.UserOperation) :=
  match ops with
  | [] => uops
  | op :: rest => convertFrom (S i) rest (<[i := ToUserOperation op]> uops)
  end.

Definition BundlerDumpMempool (ctx : Ctx) (entryPoint : common.Address)
  : M (slice (option userop.UserOperation) * option error) :=
  let ops : slice (option UserOperation) := zero in
  let* r := CallContext ctx ops "debug_bundler_dumpMempool" [ArgAddress entryPoint] in
  let (ops, err) := r in
  match err with
  | Some err => ret (nil_slice, Some err)
  | None =>
      let uops := replicate (len ops) None in
      let uops := convertFrom 0 (elems ops) uops in
      ret (mk_slice uops, None)
  end.

Definition BundlerSendBundleNow (ctx : Ctx) : M (option common.Hash * option error) :=
  let result : string := zero in
  let* r := CallContext ctx result "debug_bundler_sendBundleNow" [] in
  let (result, err) := r in
  match err with
  | Some err => ret (None, Some err)
  | None =>
      if (String.length result =? 0)%nat then ret (None, None)
      else
        let hash := common.HexToHash result in
        ret (Some hash, None)
  end.

Definition BundlerSetBundlingMode (ctx : Ctx) (mode : string) : M (option error) :=
  CallContextNil ctx "debug_bundler_setBundlingMode" [ArgString mode].

(** *** The interface [Client] as a whole *)

(** An invocation of one of the eleven methods. *)
Inductive operation : Type :=
  | OpSendUserOperation (ctx : Ctx) (op : option userop.UserOperation) (entryPoint : common.Address)
  | OpEstimateUserOperationGas (ctx : Ctx) (op : option userop.UserOperation)
      (entryPoint : common.Address)
  | OpEstimateUserOperationGasWithOverrides (ctx : Ctx) (op : option userop.UserOperation)
      (entryPoint : common.Address) (stateOverrides : gmap common.Address OverrideAccount)
  | OpGetUserOperationReceipt (ctx : Ctx) (userOpHash : common.Hash)
  | OpGetUserOperationByHash (ctx : Ctx) (userOpHash : common.Hash)
  | OpSupportedEntryPoints (ctx : Ctx)
  | OpChainId (ctx : Ctx)
  | OpBundlerClearState (ctx : Ctx)
  | OpBundlerDumpMempool (ctx : Ctx) (entryPoint : common.Address)
  | OpBundlerSendBundleNow (ctx : Ctx)
  | OpBundlerSetBundlingMode (ctx : Ctx) (mode : string).

(** What a method returns beside its error. *)
Inductive returned : Type :=
  | RHash (h : common.Hash)
  | RGasEstimates (p : option GasEstimates)
  | RReceipt (p : option UserOperationReceipt)
  | RLookup (p : option HashLookupResult)
  | RAddresses (s : slice common.Address)
  | RBig (p : option Z)
  | RUserOperations (s : slice (option userop.UserOperation))
  | RHashPtr (p : option common.Hash)
  | RNothing.

Definition withResult {A : Type} (wrap : A -> returned) (m : M (A * option error))
  : M (returned * option error) :=
  let* r := m in
  let (a, err) := r in ret (wrap a, err).

Definition invoke (o : operation) : M (returned * option error) :=
  match o with
  | OpSendUserOperation ctx op ep => withResult RHash (SendUserOperation ctx op ep)
  | OpEstimateUserOperationGas ctx op ep =>
      withResult RGasEstimates (EstimateUserOperationGas ctx op ep)
  | OpEstimateUserOperationGasWithOverrides ctx op ep so =>
      withResult RGasEstimates (EstimateUserOperationGasWithOverrides ctx op ep so)
  | OpGetUserOperationReceipt ctx h => withResult RReceipt (GetUserOperationReceipt ctx h)
  | OpGetUserOperationByHash ctx h => withResult RLookup (GetUserOperationByHash ctx h)
  | OpSupportedEntryPoints ctx => withResult RAddresses (SupportedEntryPoints ctx)
  | OpChainId ctx => withResult RBig (ChainId ctx)
  | OpBundlerClearState ctx => let* err := BundlerClearState ctx in ret (RNothing, err)
  | OpBundlerDumpMempool ctx ep => withResult RUserOperations (BundlerDumpMempool ctx ep)
  | OpBundlerSendBundleNow ctx => withResult RHashPtr (BundlerSendBundleNow ctx)
  | OpBundlerSetBundlingMode ctx mode =>
      let* err := BundlerSetBundlingMode ctx mode in ret (RNothing, err)
  end.

(** The request a method hands to [CallContext]. *)
Definition requestOf (o : operation) : call :=
  match o with
  | OpSendUserOperation ctx op ep =>
      mkCall ctx "eth_sendUserOperation" [ArgUserOperation op; ArgAddress ep]
  | OpEstimateUserOperationGas ctx op ep =>
      mkCall ctx "eth_estimateUserOperationGas" [ArgUserOperation op; ArgAddress ep]
  | OpEstimateUserOperationGasWithOverrides ctx op ep so =>
      mkCall ctx "eth_estimateUserOperationGas"
        [ArgUserOperation op; ArgAddress ep; ArgOverrides so]
  | OpGetUserOperationReceipt ctx h => mkCall ctx "eth_getUserOperationReceipt" [ArgHash h]
  | OpGetUserOperationByHash ctx h => mkCall ctx "eth_getUserOperationByHash" [ArgHash h]
  | OpSupportedEntryPoints ctx => mkCall ctx "eth_supportedEntryPoints" []
  | OpChainId ctx => mkCall ctx "eth_chainId" []
  | OpBundlerClearState ctx => mkCall ctx "debug_bundler_clearState" []
  | OpBundlerDumpMempool ctx ep => mkCall ctx "debug_bundler_dumpMempool" [ArgAddress ep]
  | OpBundlerSendBundleNow ctx => mkCall ctx "debug_bundler_sendBundleNow" []
  | OpBundlerSetBundlingMode ctx mode =>
      mkCall ctx "debug_bundler_setBundlingMode" [ArgString mode]
  end.

(** The error of the [CallContext] a method makes, with the variable the
    method declares for its result. *)
Definition callError {T : Type} `{Unmarshaler T} (result : T) (q : call) : M (option error) :=
  let* r := CallContext (callCtx q) result (callMethod q) (callArgs q) in
  ret (snd r).

Definition transportCall (o : operation) : M (option error) :=
  match o with
  | OpSendUserOperation _ _ _ => callError (zero : common.Hash) (requestOf o)
  | OpEstimateUserOperationGas _ _ _ => callError (zero : GasEstimates) (requestOf o)
  | OpEstimateUserOperationGasWithOverrides _ _ _ _ =>
      callError (zero : GasEstimates) (requestOf o)
  | OpGetUserOperationReceipt _ _ => callError (zero : UserOperationReceipt) (requestOf o)
  | OpGetUserOperationByHash _ _ => callError (zero : HashLookupResult) (requestOf o)
  | OpSupportedEntryPoints _ => callError (zero : slice common.Address) (requestOf o)
  | OpChainId _ => callError (zero : Z) (requestOf o)
  | OpBundlerClearState ctx => CallContextNil ctx "debug_bundler_clearState" []
  | OpBundlerDumpMempool _ _ => callError (zero : slice (option UserOperation)) (requestOf o)
  | OpBundlerSendBundleNow _ => callError (zero : string) (requestOf o)
  | OpBundlerSetBundlingMode ctx mode =>
      CallContextNil ctx "debug_bundler_setBundlingMode" [ArgString mode]
  end.

(** [SendUserOperation] returns its hash by value; the other methods
    return a pointer, a slice or nothing beside the error. *)
Definition returnsValue (o : operation) : bool :=
  match o with
  | OpSendUserOperation _ _ _ => true
  | _ => false
  end.

(** A nil pointer or a nil slice; a method with no result beside its error
    returns nothing at all. [SendUserOperation] returns a hash by value. *)
Definition isNil (r : returned) : bool :=
  match r with
  | RHash _ => false
  | RGasEstimates None | RReceipt None | RLookup None | RBig None | RHashPtr None => true
  | RAddresses nil_slice | RUserOperations nil_slice => true
  | RNothing => true
  | _ => false
  end.

End Client.

Arguments mkRpcClient {rpcClient} c.
Arguments c {rpcClient} r.
Arguments mkCall {Ctx} callCtx callMethod callArgs.
Arguments callCtx {Ctx} c.
Arguments callMethod {Ctx} c.
Arguments callArgs {Ctx} c.
Arguments mkState {World Ctx rpcClient} self world calls.
Arguments self {World Ctx rpcClient} s.
Arguments world {World Ctx rpcClient} s.
Arguments calls {World Ctx rpcClient} s.
Arguments ret {World Ctx rpcClient A} a _.
Arguments bind {World Ctx rpcClient A B} m k _.
Arguments roundTrip {World Ctx rpcClient} exchange ctx method args _.
Arguments after {World Ctx rpcClient} exchange st ctx method args.
Arguments CallContext {World Ctx rpcClient} exchange {T _} ctx result method args _.
Arguments CallContextNil {World Ctx rpcClient} exchange ctx method args _.
Arguments NewClient {rpcClient} c.
Arguments DialContext {World Ctx rpcClient} rpcDialContext ctx rawurl w.
Arguments Dial {World Ctx} Background {rpcClient} rpcDialContext rawurl w.
Arguments SendUserOperation {World Ctx rpcClient} exchange ctx op entryPoint _.
Arguments EstimateUserOperationGas {World Ctx rpcClient} exchange GasEstimates {_}
  ctx op entryPoint _.
Arguments EstimateUserOperationGasWithOverrides {World Ctx rpcClient} exchange GasEstimates {_}
  ctx op entryPoint stateOverrides _.
Arguments GetUserOperationReceipt {World Ctx rpcClient} exchange UserOperationReceipt {_}
  ctx userOpHash _.
Arguments GetUserOperationByHash {World Ctx rpcClient} exchange HashLookupResult {_}
  ctx userOpHash _.
Arguments SupportedEntryPoints {World Ctx rpcClient} exchange ctx _.
Arguments ChainId {World Ctx rpcClient} exchange ctx _.
Arguments BundlerClearState {World Ctx rpcClient} exchange ctx _.
Arguments BundlerDumpMempool {World Ctx rpcClient} exchange ctx entryPoint _.
Arguments BundlerSendBundleNow {World Ctx rpcClient} exchange ctx _.
Arguments BundlerSetBundlingMode {World Ctx rpcClient} exchange ctx mode _.
Arguments invoke {World Ctx rpcClient} exchange GasEstimates UserOperationReceipt
  HashLookupResult {_ _ _} o _.
Arguments OpSendUserOperation {Ctx} ctx op entryPoint.
Arguments OpEstimateUserOperationGas {Ctx} ctx op entryPoint.
Arguments OpEstimateUserOperationGasWithOverrides {Ctx} ctx op entryPoint stateOverrides.
Arguments OpGetUserOperationReceipt {Ctx} ctx userOpHash.
Arguments OpGetUserOperationByHash {Ctx} ctx userOpHash.
Arguments OpSupportedEntryPoints {Ctx} ctx.
Arguments OpChainId {Ctx} ctx.
Arguments OpBundlerClearState {Ctx} ctx.
Arguments OpBundlerDumpMempool {Ctx} ctx entryPoint.
Arguments OpBundlerSendBundleNow {Ctx} ctx.
Arguments OpBundlerSetBundlingMode {Ctx} ctx mode.
Arguments requestOf {Ctx} o.
Arguments callError {World Ctx rpcClient} exchange {T _} result q _.
Arguments transportCall {World Ctx rpcClient} exchange GasEstimates UserOperationReceipt
  HashLookupResult {_ _ _} o _.
Arguments returnsValue {Ctx} o.
Arguments isNil {GasEstimates UserOperationReceipt HashLookupResult} r.
Arguments RHash {GasEstimates UserOperationReceipt HashLookupResult} h.
Arguments RGasEstimates {GasEstimates UserOperationReceipt HashLookupResult} p.
Arguments RReceipt {GasEstimates UserOperationReceipt HashLookupResult} p.
Arguments RLookup {GasEstimates UserOperationReceipt HashLookupResult} p.
Arguments RAddresses {GasEstimates UserOperationReceipt HashLookupResult} s.
Arguments RBig {GasEstimates UserOperationReceipt HashLookupResult} p.
Arguments RUserOperations {GasEstimates UserOperationReceipt HashLookupResult} s.
Arguments RHashPtr {GasEstimates UserOperationReceipt HashLookupResult} p.
Arguments RNothing {GasEstimates UserOperationReceipt HashLookupResult}.

(** ** The wire format of a user operation, as JSON *)

(** The texts of the members of one operation in a server's answer to
    [debug_bundler_dumpMempool]. *)
Record wireText : Type := mkWireText {
  textSender : string;
  textNonce : string;
  textInitCode : string;
  textCallData : string;
  textCallGasLimit : string;
  textVerificationGasLimit : string;
  textPreVerificationGas : string;
  textMaxFeePerGas : string;
  textMaxPriorityFeePerGas : string;
  textPaymasterAndData : string;
  textSignature : string
}.

(** The JSON object with these members, under the names of the [json]
    tags of [UserOperation]. *)
Definition wireObject (t : wireText) : json.value :=
  json.JObject [
    ("sender"%string, json.JString (textSender t));
    ("nonce"%string, json.JString (textNonce t));
    ("initCode"%string, json.JString (textInitCode t));
    ("callData"%string, json.JString (textCallData t));
    ("callGasLimit"%string, json.JString (textCallGasLimit t));
    ("verificationGasLimit"%string, json.JString (textVerificationGasLimit t));
    ("preVerificationGas"%string, json.JString (textPreVerificationGas t));
    ("maxFeePerGas"%string, json.JString (textMaxFeePerGas t));
    ("maxPriorityFeePerGas"%string, json.JString (textMaxPriorityFeePerGas t));
    ("paymasterAndData"%string, json.JString (textPaymasterAndData t));
    ("signature"%string, json.JString (textSignature t))
  ].





(** The wire struct that holds the fields of a canonical operation: what
    [ToUserOperation] reads them from. *)
Definition wireOf (op : userop.UserOperation) : UserOperation :=
  mkUserOperation (userop.Sender op) (userop.Nonce op) (userop.InitCode op)
    (userop.CallData op) (userop.CallGasLimit op) (userop.VerificationGasLimit op)
    (userop.PreVerificationGas op) (userop.MaxFeePerGas op) (userop.MaxPriorityFeePerGas op)
    (userop.PaymasterAndData op) (userop.Signature op).

(** [json.Marshal] of the wire struct: one member for each field, under
    the name of its [json] tag and in the order of the fields. The types of
    [hexutil] and [common] are written by their [MarshalText]: addresses
    and byte strings as [0x]-prefixed hexadecimal, big integers as
    [0x]-prefixed minimal hexadecimal; a nil pointer is JSON null. *)
Definition marshalBig (p : option Z) : json.value :=
  match p with
  | None => json.JNull
  | Some z => json.JString (hexutil.EncodeBig z)
  end.

Definition marshalBytes (b : bytes) : json.value := json.JString (hexutil.Encode b).

Definition marshalUserOperation (uo : UserOperation) : json.value :=
  json.JObject [
    ("sender"%string, json.JString (common.Address_MarshalText (Sender uo)));
    ("nonce"%string, marshalBig (Nonce uo));
    ("initCode"%string, marshalBytes (InitCode uo));
    ("callData"%string, marshalBytes (CallData uo));
    ("callGasLimit"%string, marshalBig (CallGasLimit uo));
    ("verificationGasLimit"%string, marshalBig (VerificationGasLimit uo));
    ("preVerificationGas"%string, marshalBig (PreVerificationGas uo));
    ("maxFeePerGas"%string, marshalBig (MaxFeePerGas uo));
    ("maxPriorityFeePerGas"%string, marshalBig (MaxPriorityFeePerGas uo));
    ("paymasterAndData"%string, marshalBytes (PaymasterAndData uo));
    ("signature"%string, marshalBytes (Signature uo))
  ].

(** A canonical operation in the wire format. *)
Definition encodeUserOperation (op : userop.UserOperation) : json.value :=
  marshalUserOperation (wireOf op).

(** Decoding one element of the mempool dump: [json.Unmarshal] into a
    [*UserOperation], then [ToUserOperation]. *)
Definition decodeUserOperation (v : json.value) : option userop.UserOperation * option error :=
  let (uo, err) := Unmarshal v (zero : option UserOperation) in
  (ToUserOperation uo, err).

(** The numeric fields of a valid user operation are unsigned integers of
    at most 256 bits (the [uint256] of the entry point contract); a nil
    field carries no number. *)
Definition validBig (p : option Z) : bool :=
  match p with
  | None => true
  | Some z => (0 <=? z) && (z <? 2 ^ 256)
  end.

Definition valid (op : userop.UserOperation) : bool :=
  validBig (userop.Nonce op) && validBig (userop.CallGasLimit op)
  && validBig (userop.VerificationGasLimit op) && validBig (userop.PreVerificationGas op)
  && validBig (userop.MaxFeePerGas op) && validBig (userop.MaxPriorityFeePerGas op).

(** ** A scripted transport

    A world in which the server's outcomes are fixed in advance: each
    exchange consumes the next one. It instantiates the client on concrete
    inputs. *)
Module scripted.

Definition World : Type := list response.

Definition exchange (_ : unit) (_ : unit) (_ : string) (_ : list arg) (w : World)
  : response * World :=
  match w with
  | [] => (Failed (TransportError "connection closed"), [])
  | resp :: rest => (resp, rest)
  end.

(** A result struct of a third-party package with no field the examples
    look at: decoding keeps the members of the JSON object it received. *)
Record passThrough : Type := mkPassThrough { members : list (string * json.value) }.

#[global] Instance passThrough_Unmarshaler : Unmarshaler passThrough := {|
  zero := mkPassThrough [];
  goType := "struct";
  Unmarshal v x :=
    match v with
    | json.JNull => (x, None)
    | json.JObject ms => (mkPassThrough (members x ++ ms), None)
    | _ => (x, Some (UnmarshalTypeError (json.describe v) "struct"))
    end
|}.

(** A client on connection [tt], in a world that will answer [script]. *)
Definition start (script : list response) : State World unit unit :=
  mkState (mkRpcClient tt) script [].

(** The same client after [log] has been sent. *)
Definition resume (log : list (call unit)) (script : list response) : State World unit unit :=
  mkState (mkRpcClient tt) script log.

(** The scenario of the specification: an operation of sender [0xAAAA...]
    with nonce 0, all gas and fee fields 0, empty init code, call data and
    paymaster data, and a signature, for the entry point [0xBBBB...]. *)
Definition sender : common.Address :=
  common.HexToAddress "0xAAAAAAAAAAAAAAAAAAAAAAAAAAAAAAAAAAAAAAAA".

Definition entryPoint : common.Address :=
  common.HexToAddress "0xBBBBBBBBBBBBBBBBBBBBBBBBBBBBBBBBBBBBBBBB".

Definition op : userop.UserOperation :=
  userop.mkUserOperation sender (Some 0) [] [] (Some 0) (Some 0) (Some 0) (Some 0) (Some 0) []
    [x12; x34].

Definition opText : wireText :=
  mkWireText "0xaaaaaaaaaaaaaaaaaaaaaaaaaaaaaaaaaaaaaaaa" "0x0" "0x" "0x" "0x0" "0x0" "0x0" "0x0"
    "0x0" "0x" "0x1234".

Definition hash : common.Hash :=
  common.HexToHash "0x00000000000000000000000000000000000000000000000000000000deadbeef".


(** An operation whose integer fields reach the ends of the 256-bit
    range. *)
Definition wideOp : userop.UserOperation :=
  userop.mkUserOperation entryPoint (Some (2 ^ 256 - 1)) [x00; xff] [x01] (Some 0) None
    (Some (2 ^ 255)) (Some 1000000000) (Some 16) [x0a] [x12; x34].

End scripted.

(** * Properties of the library models *)

(** ** encoding/hex *)

Lemma hex_byte_roundtrip (v : byte) :
  hex.fromHexChar (hex.hextable (Byte.to_N v / 16)) = Some (Byte.to_N v / 16)%N /\
  hex.fromHexChar (hex.hextable (Byte.to_N v mod 16)) = Some (Byte.to_N v mod 16)%N /\
  byte_of_N ((Byte.to_N v / 16) * 16 + Byte.to_N v mod 16) = v.
Proof. destruct v; vm_compute; auto. Qed.

Lemma hex_Decode_Encode (b : bytes) : hex.Decode (hex.Encode b) = (b, None).
Proof.
  induction b as [|v b IH]; [reflexivity|].
  destruct (hex_byte_roundtrip v) as (Hhi & Hlo & Hv).
  cbn [hex.Encode hex.Decode]. rewrite Hhi, Hlo, IH, Hv. reflexivity.
Qed.

Lemma hex_Encode_length (b : bytes) :
  String.length (hex.Encode b) = (2 * List.length b)%nat.
Proof. induction b as [|v b IH]; cbn [hex.Encode String.length List.length]; lia. Qed.

Lemma hex_Encode_allNibbles (b : bytes) : hexutil.allNibbles (hex.Encode b) = true.
Proof.
  induction b as [|v b IH]; [reflexivity|].
  destruct (hex_byte_roundtrip v) as (Hhi & Hlo & _).
  cbn [hex.Encode hexutil.allNibbles]. unfold hexutil.decodeNibble.
  rewrite Hhi, Hlo. exact IH.
Qed.

Lemma hextable_nibble (m : N) :
  (m < 16)%N -> hex.fromHexChar (hex.hextable m) = Some m.
Proof.
  intros Hm.
  assert (Hcases : In m [0; 1; 2; 3; 4; 5; 6; 7; 8; 9; 10; 11; 12; 13; 14; 15]%N).
  { cbn [In]. lia. }
  cbn [In] in Hcases.
  repeat (destruct Hcases as [<-|Hcases]; [reflexivity|]). destruct Hcases.
Qed.

Lemma hextable_zero (m : N) :
  (m < 16)%N -> hex.hextable m = "0"%char -> m = 0%N.
Proof.
  intros Hm Hz. pose proof (hextable_nibble m Hm) as Hd.
  rewrite Hz in Hd. vm_compute in Hd. congruence.
Qed.

(** ** hexutil: byte strings *)

Lemma checkText_Encode (b : bytes) :
  hexutil.checkText (hexutil.Encode b) true = Ok (hex.Encode b).
Proof.
  unfold hexutil.checkText, hexutil.Encode, hexutil.prefix0x.
  cbn [String.length Nat.eqb hexutil.has0xPrefix hexutil.drop2].
  change (Ascii.eqb "0" "0" && (Ascii.eqb "x" "x" || Ascii.eqb "x" "X")) with true.
  cbv iota. rewrite hex_Encode_length.
  replace (Nat.modulo (2 * List.length b) 2) with 0%nat; [reflexivity|].
  symmetry. rewrite Nat.mul_comm. apply Nat.Div0.mod_mul.
Qed.

Lemma Bytes_UnmarshalText_Encode (b old : bytes) :
  hexutil.Bytes_UnmarshalText (hexutil.Encode b) old = (b, None).
Proof.
  unfold hexutil.Bytes_UnmarshalText.
  rewrite checkText_Encode, hex_Decode_Encode. reflexivity.
Qed.

Lemma UnmarshalFixedText_Encode (typname : string) (b out : bytes) (len : nat) :
  List.length b = len ->
  hexutil.UnmarshalFixedText typname (hexutil.Encode b) len out = (b, None).
Proof.
  intros <-. unfold hexutil.UnmarshalFixedText.
  rewrite checkText_Encode, hex_Encode_length, hex_Encode_allNibbles, hex_Decode_Encode.
  replace (Nat.div (2 * List.length b) 2) with (List.length b).
  - rewrite Nat.eqb_refl. reflexivity.
  - symmetry. rewrite Nat.mul_comm. apply Nat.div_mul. discriminate.
Qed.

(** ** hexutil: big integers *)

Lemma nibbles_shift (s : string) (a : N) :
  hexutil.nibbles s a =
  option_map (fun v => (a * 16 ^ N.of_nat (String.length s) + v)%N) (hexutil.nibbles s 0).
Proof.
  revert a. induction s as [|ch s IH]; intros a.
  - cbn. f_equal. lia.
  - cbn [hexutil.nibbles String.length]. destruct (hexutil.decodeNibble ch) as [nib|]; [|reflexivity].
    rewrite (IH (a * 16 + nib)%N), (IH (0 * 16 + nib)%N).
    destruct (hexutil.nibbles s 0) as [v|]; [|reflexivity].
    cbn [option_map]. f_equal. rewrite Nat2N.inj_succ, N.pow_succ_r'. lia.
Qed.

Lemma nibbles_text16_aux (fuel : nat) :
  forall (n : N) (acc : string),
    (n < 16 ^ N.of_nat fuel)%N ->
    hexutil.nibbles (hexutil.text16_aux fuel n acc) 0 =
    option_map (fun v => (n * 16 ^ N.of_nat (String.length acc) + v)%N) (hexutil.nibbles acc 0).
Proof.
  induction fuel as [|fuel IH]; intros n acc Hn.
  - cbn in Hn. assert (n = 0%N) as -> by lia. cbn [hexutil.text16_aux].
    destruct (hexutil.nibbles acc 0); reflexivity.
  - cbn [hexutil.text16_aux].
    assert (Hacc : hexutil.nibbles (String (hex.hextable (n mod 16)) acc) 0 =
                   option_map (fun v => ((n mod 16) * 16 ^ N.of_nat (String.length acc) + v)%N)
                     (hexutil.nibbles acc 0)).
    { cbn [hexutil.nibbles]. unfold hexutil.decodeNibble.
      rewrite hextable_nibble by (apply N.mod_lt; discriminate).
      rewrite nibbles_shift. destruct (hexutil.nibbles acc 0); [|reflexivity].
      cbn [option_map]. f_equal. }
    pose proof (N.div_mod n 16%N ltac:(discriminate)) as Hdm.
    destruct (N.eqb_spec (n / 16)%N 0%N) as [Hq|Hq].
    + rewrite Hacc. destruct (hexutil.nibbles acc 0); [|reflexivity].
      cbn [option_map]. f_equal. rewrite Hq in Hdm. lia.
    + rewrite IH.
      * rewrite Hacc. destruct (hexutil.nibbles acc 0); [|reflexivity].
        cbn [option_map String.length]. f_equal.
        rewrite Nat2N.inj_succ, N.pow_succ_r'. nia.
      * rewrite Nat2N.inj_succ, N.pow_succ_r' in Hn.
        apply N.Div0.div_lt_upper_bound. exact Hn.
Qed.

Lemma text16_fuel (n : N) : (n < 16 ^ N.of_nat (S (N.to_nat (N.log2 n))))%N.
Proof.
  rewrite Nat2N.inj_succ, N2Nat.id.
  destruct (N.eq_dec n 0%N) as [->|Hn]; [reflexivity|].
  destruct (N.log2_spec n ltac:(lia)) as [_ Hlt].
  eapply N.lt_le_trans; [exact Hlt|].
  apply N.pow_le_mono_l. lia.
Qed.

Lemma nibbles_text16 (n : N) : hexutil.nibbles (hexutil.text16 n) 0 = Some n.
Proof.
  unfold hexutil.text16. rewrite nibbles_text16_aux by apply text16_fuel.
  cbn. f_equal. lia.
Qed.

Lemma text16_aux_length (fuel : nat) :
  forall (k : nat) (n : N) (acc : string),
    (n < 16 ^ N.of_nat (S k))%N ->
    (String.length (hexutil.text16_aux fuel n acc) <= String.length acc + S k)%nat.
Proof.
  induction fuel as [|fuel IH]; intros k n acc Hn; cbn [hexutil.text16_aux]; [lia|].
  destruct (N.eqb_spec (n / 16)%N 0%N) as [Hq|Hq]; [cbn [String.length]; lia|].
  rewrite Nat2N.inj_succ, N.pow_succ_r' in Hn.
  assert (Hdiv : (n / 16 < 16 ^ N.of_nat k)%N) by (apply N.Div0.div_lt_upper_bound; exact Hn).
  destruct k as [|k].
  { change (N.of_nat 0) with 0%N in Hdiv. rewrite N.pow_0_r in Hdiv.
    apply N.lt_1_r in Hdiv. contradiction. }
  specialize (IH k (n / 16)%N (String (hex.hextable (n mod 16)) acc) Hdiv).
  cbn [String.length] in IH. lia.
Qed.

Lemma text16_length (n : N) :
  (n < 2 ^ 256)%N -> (String.length (hexutil.text16 n) <= 64)%nat.
Proof.
  intros Hn. unfold hexutil.text16.
  apply (text16_aux_length _ 63 n EmptyString).
  change (16 ^ N.of_nat 64)%N with (2 ^ 256)%N. exact Hn.
Qed.

Lemma text16_aux_head (fuel : nat) :
  forall (n : N) (acc : string),
    (0 < n)%N -> (n < 16 ^ N.of_nat fuel)%N ->
    exists d rest, hexutil.text16_aux fuel n acc = String d rest /\ d <> "0"%char.
Proof.
  induction fuel as [|fuel IH]; intros n acc Hpos Hn.
  - cbn in Hn. lia.
  - cbn [hexutil.text16_aux].
    pose proof (N.div_mod n 16%N ltac:(discriminate)) as Hdm.
    destruct (N.eqb_spec (n / 16)%N 0%N) as [Hq|Hq].
    + eexists _, _. split; [reflexivity|].
      intros Hz. apply hextable_zero in Hz; [|apply N.mod_lt; discriminate].
      rewrite Hq in Hdm. lia.
    + apply IH; [apply N.neq_0_lt_0; exact Hq|].
      rewrite Nat2N.inj_succ, N.pow_succ_r' in Hn.
      apply N.Div0.div_lt_upper_bound. exact Hn.
Qed.

(** A number of at most 256 bits survives [EncodeBig] and
    [Big.UnmarshalText]. *)
Lemma Big_UnmarshalText_EncodeBig (n old : Z) :
  0 <= n < 2 ^ 256 -> hexutil.Big_UnmarshalText (hexutil.EncodeBig n) old = (n, None).
Proof.
  intros [Hlo Hhi]. unfold hexutil.EncodeBig.
  destruct n as [|q|q]; [reflexivity| |lia].
  cbn [Z.sgn]. remember (Z.pos q) as n eqn:Hn.
  assert (Hpos : 0 < n) by lia.
  destruct (text16_aux_head _ (Z.to_N n) EmptyString ltac:(lia) (text16_fuel _))
    as (d & rest & Htext & Hd).
  fold (hexutil.text16 (Z.to_N n)) in Htext.
  assert (Hlen : (String.length (hexutil.text16 (Z.to_N n)) <= 64)%nat).
  { apply text16_length. change (2 ^ 256)%N with (Z.to_N (2 ^ 256)). lia. }
  pose proof (nibbles_text16 (Z.to_N n)) as Hval.
  unfold hexutil.Big_UnmarshalText, hexutil.checkNumberText, hexutil.prefix0x.
  cbn [String.length Nat.eqb hexutil.has0xPrefix hexutil.drop2].
  change (Ascii.eqb "0" "0" && (Ascii.eqb "x" "x" || Ascii.eqb "x" "X")) with true.
  cbn [negb]. rewrite Htext in *.
  assert (Hne : Ascii.eqb d "0" = false) by (apply Ascii.eqb_neq; exact Hd).
  rewrite Hne, andb_false_r.
  destruct (Nat.ltb_spec 64 (String.length (String d rest))) as [Hgt|_]; [lia|].
  rewrite Hval. rewrite Z2N.id by lia. reflexivity.
Qed.

(** ** common: hashes and addresses *)

Lemma store_data {n : nat} (h h0 : common.fixedBytes n) :
  common.store (common.data h) h0 = h.
Proof.
  destruct h as [l Hl]. unfold common.store, common.data. cbn [proj1_sig].
  destruct (decide (List.length l = n)) as [H|H]; [|contradiction].
  f_equal. apply proof_irrel.
Qed.


Lemma Address_UnmarshalJSON_MarshalText (a a0 : common.Address) :
  common.Address_UnmarshalJSON (Some (common.Address_MarshalText a)) a0 = (a, None).
Proof.
  unfold common.Address_UnmarshalJSON, common.Address_MarshalText, hexutil.UnmarshalFixedJSON.
  rewrite UnmarshalFixedText_Encode by exact (proj2_sig a).
  cbn [hexutil.wrapTypeError]. rewrite store_data. reflexivity.
Qed.

Lemma SetBytes_length (n : nat) (b : bytes) : List.length (common.SetBytes n b) = n.
Proof.
  unfold common.SetBytes.
  destruct (Nat.ltb_spec n (List.length b)) as [Hlt|Hge].
  - rewrite length_app, repeat_length, length_skipn. lia.
  - rewrite length_app, repeat_length. lia.
Qed.

(** [BytesToHash] stores the 32 bytes [SetBytes] computes. *)
Lemma BytesToHash_data (b : bytes) :
  common.data (common.BytesToHash b) = common.SetBytes common.HashLength b.
Proof.
  unfold common.BytesToHash, common.store.
  destruct (decide _) as [H|H]; [reflexivity|].
  exfalso. apply H, SetBytes_length.
Qed.

(** ** Decoding the wire shape *)

Lemma ToUserOperation_wireOf (op : userop.UserOperation) :
  ToUserOperation (Some (wireOf op)) = Some op.
Proof. destruct op; reflexivity. Qed.

(** An object with the eleven members of the struct, in the order of its
    fields, fills a zero struct with what each member decodes to. *)
Lemma decodeMembers_fields (v1 v2 v3 v4 v5 v6 v7 v8 v9 v10 v11 : json.value)
    (sender : common.Address) (nonce callGasLimit verificationGasLimit preVerificationGas
      maxFeePerGas maxPriorityFeePerGas : option Z)
    (initCode callData paymasterAndData signature : bytes) :
  Unmarshal v1 common.zeroAddress = (sender, None) ->
  Unmarshal v2 (None : option Z) = (nonce, None) ->
  Unmarshal v3 ([] : bytes) = (initCode, None) ->
  Unmarshal v4 ([] : bytes) = (callData, None) ->
  Unmarshal v5 (None : option Z) = (callGasLimit, None) ->
  Unmarshal v6 (None : option Z) = (verificationGasLimit, None) ->
  Unmarshal v7 (None : option Z) = (preVerificationGas, None) ->
  Unmarshal v8 (None : option Z) = (maxFeePerGas, None) ->
  Unmarshal v9 (None : option Z) = (maxPriorityFeePerGas, None) ->
  Unmarshal v10 ([] : bytes) = (paymasterAndData, None) ->
  Unmarshal v11 ([] : bytes) = (signature, None) ->
  decodeMembers
    [("sender"%string, v1); ("nonce"%string, v2); ("initCode"%string, v3);
     ("callData"%string, v4); ("callGasLimit"%string, v5);
     ("verificationGasLimit"%string, v6); ("preVerificationGas"%string, v7);
     ("maxFeePerGas"%string, v8); ("maxPriorityFeePerGas"%string, v9);
     ("paymasterAndData"%string, v10); ("signature"%string, v11)]
    zeroUserOperation
  = (mkUserOperation sender nonce initCode callData callGasLimit verificationGasLimit
       preVerificationGas maxFeePerGas maxPriorityFeePerGas paymasterAndData signature, None).
Proof.
  intros H1 H2 H3 H4 H5 H6 H7 H8 H9 H10 H11.
  unfold zeroUserOperation. cbn [decodeMembers].
  repeat
    (match goal with
     | |- context [setField ?k ?v (mkUserOperation ?a1 ?a2 ?a3 ?a4 ?a5 ?a6 ?a7 ?a8 ?a9 ?a10 ?a11)] =>
         let t := eval cbv beta iota delta [setField]
                  in (setField k v (mkUserOperation a1 a2 a3 a4 a5 a6 a7 a8 a9 a10 a11)) in
         change (setField k v (mkUserOperation a1 a2 a3 a4 a5 a6 a7 a8 a9 a10 a11)) with t
     end;
     repeat match goal with
     | |- context [json.fieldMatch ?k ?name] =>
         let b := eval vm_compute in (json.fieldMatch k name) in
         change (json.fieldMatch k name) with b
     end;
     cbv beta iota; unfold decodeField;
     first [rewrite H1|rewrite H2|rewrite H3|rewrite H4|rewrite H5|rewrite H6
           |rewrite H7|rewrite H8|rewrite H9|rewrite H10|rewrite H11];
     cbv beta iota).
  reflexivity.
Qed.

(** The members of [marshalUserOperation] decode to the fields they
    encode. *)
Lemma Unmarshal_marshalBig (p : option Z) :
  validBig p = true -> Unmarshal (marshalBig p) (None : option Z) = (p, None).
Proof.
  destruct p as [z|]; [|reflexivity]. cbn [validBig]. intros Hz.
  apply andb_true_iff in Hz as [Hlo Hhi].
  apply Z.leb_le in Hlo. apply Z.ltb_lt in Hhi.
  cbn [marshalBig Unmarshal ptr_Unmarshaler Big_Unmarshaler zero json.asString
       hexutil.Big_UnmarshalJSON].
  rewrite Big_UnmarshalText_EncodeBig by lia. reflexivity.
Qed.

Lemma Unmarshal_marshalBytes (b old : bytes) :
  Unmarshal (marshalBytes b) old = (b, None).
Proof.
  cbn [marshalBytes Unmarshal Bytes_Unmarshaler json.asString hexutil.Bytes_UnmarshalJSON].
  rewrite Bytes_UnmarshalText_Encode. reflexivity.
Qed.

Lemma Unmarshal_Address_MarshalText (a old : common.Address) :
  Unmarshal (json.JString (common.Address_MarshalText a)) old = (a, None).
Proof.
  cbn [Unmarshal Address_Unmarshaler json.asString].
  apply Address_UnmarshalJSON_MarshalText.
Qed.






(** The conversion loop fills the slice it was given with the conversions
    of the operations, in their order. *)
Lemma convertFrom_spec (ops : list (option UserOperation)) :
  forall (i : nat) (uops : list (option userop.UserOperation)),
    List.length uops = (i + List.length ops)%nat ->
    convertFrom i ops uops = take i uops ++ map ToUserOperation ops.
Proof.
  induction ops as [|op ops IH]; intros i uops Hlen; cbn [convertFrom map List.length] in *.
  - rewrite take_ge by lia. rewrite app_nil_r. reflexivity.
  - rewrite IH by (rewrite length_insert; lia).
    rewrite (take_S_r _ _ (ToUserOperation op)) by (apply list_lookup_insert_eq; lia).
    rewrite take_insert_ge by lia. rewrite <- app_assoc. reflexivity.
Qed.

Lemma convertFrom_make (ops : list (option UserOperation)) :
  convertFrom 0 ops (replicate (List.length ops) None) = map ToUserOperation ops.
Proof. rewrite convertFrom_spec by (rewrite length_replicate; lia). reflexivity. Qed.

(** * Properties of the client *)
Section ClientProperties.

Variables World Ctx rpcClient : Type.
Variable exchange : rpcClient -> Ctx -> string -> list arg -> World -> response * World.
Variables GasEstimates UserOperationReceipt HashLookupResult : Type.
Context {GasEstimates_Unmarshaler : Unmarshaler GasEstimates}.
Context {UserOperationReceipt_Unmarshaler : Unmarshaler UserOperationReceipt}.
Context {HashLookupResult_Unmarshaler : Unmarshaler HashLookupResult}.

Implicit Types (st : State World Ctx rpcClient) (ctx : Ctx).

Lemma roundTrip_eq st ctx method args :
  roundTrip exchange ctx method args st =
  (fst (exchange (c (self st)) ctx method args (world st)), after exchange st ctx method args).
Proof.
  unfold roundTrip, after. destruct (exchange _ _ _ _ _) as [resp w]. reflexivity.
Qed.

Lemma CallContext_state {T : Type} `{Unmarshaler T} st ctx (x : T) method args :
  snd (CallContext exchange ctx x method args st) = after exchange st ctx method args.
Proof.
  unfold CallContext, bind. rewrite roundTrip_eq.
  destruct (fst (exchange _ _ _ _ _)) as [err|[[code message]|] [raw|]]; reflexivity.
Qed.

Lemma CallContextNil_state st ctx method args :
  snd (CallContextNil exchange ctx method args st) = after exchange st ctx method args.
Proof.
  unfold CallContextNil, bind. rewrite roundTrip_eq.
  destruct (fst (exchange _ _ _ _ _)) as [err|[[code message]|] [raw|]]; reflexivity.
Qed.

(** A response with a result and no error is decoded into the variable. *)
Lemma CallContext_reply {T : Type} `{Unmarshaler T} st ctx (x : T) method args raw w :
  exchange (c (self st)) ctx method args (world st) = (Reply None (Some raw), w) ->
  fst (CallContext exchange ctx x method args st) = Unmarshal raw x.
Proof.
  intros Hex. unfold CallContext, bind. rewrite roundTrip_eq, Hex. reflexivity.
Qed.

(** *** [BundlerSendBundleNow] *)


(** *** Every method makes one call and leaves the receiver alone *)

Ltac step_call :=
  match goal with
  | |- context [CallContext exchange ?ctx ?x ?m ?a ?st] =>
      let H := fresh "Hstate" in
      pose proof (CallContext_state st ctx x m a) as H;
      destruct (CallContext exchange ctx x m a st) as [[? [?|]] ?];
      cbn [fst snd] in H |- *; subst
  | |- context [CallContextNil exchange ?ctx ?m ?a ?st] =>
      let H := fresh "Hstate" in
      pose proof (CallContextNil_state st ctx m a) as H;
      destruct (CallContextNil exchange ctx m a st) as [[?|] ?];
      cbn [fst snd] in H |- *; subst
  end.

Ltac unfold_methods :=
  unfold invoke, transportCall, callError, withResult, SendUserOperation,
    EstimateUserOperationGas, EstimateUserOperationGasWithOverrides,
    GetUserOperationReceipt, GetUserOperationByHash, SupportedEntryPoints, ChainId,
    BundlerClearState, BundlerDumpMempool, BundlerSendBundleNow, BundlerSetBundlingMode,
    bind, ret; cbn [requestOf callCtx callMethod callArgs].

Lemma invoke_state (o : operation Ctx) st :
  snd (invoke exchange GasEstimates UserOperationReceipt HashLookupResult o st) =
  after exchange st (callCtx (requestOf o)) (callMethod (requestOf o)) (callArgs (requestOf o)).
Proof.
  destruct o; unfold_methods; step_call; try reflexivity.
  destruct (String.length _ =? 0)%nat; reflexivity.
Qed.



(** C7. When the response to [eth_chainId] is the JSON string [s] and [s]
    is the hexadecimal text of the integer [n], [ChainId] returns a pointer
    to [n] and no error; [0x1] is the text of 1 and [0x89] that of 137. *)
Theorem ChainId_decodes_hex :
  (forall st ctx (s : string) (n : Z) (w : World),
     exchange (c (self st)) ctx "eth_chainId" [] (world st)
       = (Reply None (Some (json.JString s)), w) ->
     hexutil.Big_UnmarshalText s 0 = (n, None) ->
     fst (ChainId exchange ctx st) = (Some n, None)) /\
  hexutil.Big_UnmarshalText "0x1" 0 = (1, None) /\
  hexutil.Big_UnmarshalText "0x89" 0 = (137, None).
Proof.
  split; [|split; reflexivity].
  intros st ctx s n w Hex Hs.
  pose proof (CallContext_reply st ctx (zero : Z) _ _ _ _ Hex) as Hfst.
  unfold ChainId, bind, ret.
  destruct (CallContext exchange ctx _ _ _ st) as [[result err] st1].
  cbn [fst Unmarshal zero Big_Unmarshaler json.asString hexutil.Big_UnmarshalJSON] in Hfst |- *.
  rewrite Hs in Hfst. cbn [hexutil.wrapTypeError] in Hfst.
  injection Hfst as -> ->. reflexivity.
Qed.

(** *** Absent results of the two lookups *)

(** C2, as the code has it. When the server answers a lookup with a null
    result and no error, and decoding null leaves the result struct as it
    was (what [json.Unmarshal] does for a struct), [GetUserOperationReceipt]
    and [GetUserOperationByHash] return no error and a pointer to the
    zero-valued struct, not the nil pointer; a response with no result
    gives the nil pointer and [ErrNoResult]; and neither method ever
    returns the nil pointer without an error. *)
Theorem GetUserOperation_null_result st ctx (userOpHash : common.Hash) :
  Unmarshal json.JNull (zero : UserOperationReceipt) = (zero, None) ->
  Unmarshal json.JNull (zero : HashLookupResult) = (zero, None) ->
  (forall w,
     exchange (c (self st)) ctx "eth_getUserOperationReceipt" [ArgHash userOpHash] (world st)
       = (Reply None (Some json.JNull), w) ->
     fst (GetUserOperationReceipt exchange UserOperationReceipt ctx userOpHash st)
       = (Some zero, None)) /\
  (forall w,
     exchange (c (self st)) ctx "eth_getUserOperationByHash" [ArgHash userOpHash] (world st)
       = (Reply None (Some json.JNull), w) ->
     fst (GetUserOperationByHash exchange HashLookupResult ctx userOpHash st)
       = (Some zero, None)) /\
  (forall w,
     exchange (c (self st)) ctx "eth_getUserOperationReceipt" [ArgHash userOpHash] (world st)
       = (Reply None None, w) ->
     fst (GetUserOperationReceipt exchange UserOperationReceipt ctx userOpHash st)
       = (None, Some ErrNoResult)) /\
  (forall w,
     exchange (c (self st)) ctx "eth_getUserOperationByHash" [ArgHash userOpHash] (world st)
       = (Reply None None, w) ->
     fst (GetUserOperationByHash exchange HashLookupResult ctx userOpHash st)
       = (None, Some ErrNoResult)) /\
  fst (GetUserOperationReceipt exchange UserOperationReceipt ctx userOpHash st) <> (None, None) /\
  fst (GetUserOperationByHash exchange HashLookupResult ctx userOpHash st) <> (None, None).
Proof.
  intros Hreceipt Hlookup.
  repeat split.
  - intros w Hex.
    pose proof (CallContext_reply st ctx (zero : UserOperationReceipt) _ _ _ _ Hex) as Hfst.
    unfold GetUserOperationReceipt, bind, ret.
    destruct (CallContext exchange ctx _ _ _ st) as [[result err] st1].
    cbn [fst] in Hfst. rewrite Hreceipt in Hfst. injection Hfst as -> ->. reflexivity.
  - intros w Hex.
    pose proof (CallContext_reply st ctx (zero : HashLookupResult) _ _ _ _ Hex) as Hfst.
    unfold GetUserOperationByHash, bind, ret.
    destruct (CallContext exchange ctx _ _ _ st) as [[result err] st1].
    cbn [fst] in Hfst. rewrite Hlookup in Hfst. injection Hfst as -> ->. reflexivity.
  - intros w Hex. unfold GetUserOperationReceipt, CallContext, bind, ret.
    rewrite roundTrip_eq, Hex. reflexivity.
  - intros w Hex. unfold GetUserOperationByHash, CallContext, bind, ret.
    rewrite roundTrip_eq, Hex. reflexivity.
  - unfold GetUserOperationReceipt, bind, ret.
    destruct (CallContext exchange ctx _ _ _ st) as [[result [err|]] st1]; discriminate.
  - unfold GetUserOperationByHash, bind, ret.
    destruct (CallContext exchange ctx _ _ _ st) as [[result [err|]] st1]; discriminate.
Qed.

(** *** Errors *)

(** C8. Every method returns exactly the error its one [CallContext]
    returned, be it a transport failure, a cancellation, an error reported
    by the server or a decoding failure, and none when there was none; it
    makes that one call and no other; and when the error is not nil, every
    method that returns a pointer or a slice returns nil beside it. *)
Theorem errors_pass_through (o : operation Ctx) st :
  snd (fst (invoke exchange GasEstimates UserOperationReceipt HashLookupResult o st))
    = fst (transportCall exchange GasEstimates UserOperationReceipt HashLookupResult o st) /\
  calls (snd (invoke exchange GasEstimates UserOperationReceipt HashLookupResult o st))
    = calls st ++ [requestOf o] /\
  (snd (fst (invoke exchange GasEstimates UserOperationReceipt HashLookupResult o st)) <> None ->
   returnsValue o = false ->
   isNil (fst (fst (invoke exchange GasEstimates UserOperationReceipt HashLookupResult o st)))
     = true).
Proof.
  split; [|split].
  - destruct o; unfold_methods; step_call; try reflexivity.
    destruct (String.length _ =? 0)%nat; reflexivity.
  - rewrite invoke_state. destruct o; reflexivity.
  - destruct o; unfold_methods; step_call; cbn [fst snd isNil returnsValue];
      try congruence.
    destruct (String.length _ =? 0)%nat; cbn; congruence.
Qed.

(** *** Statelessness *)

(** C9. The client's only state is the connection handle [NewClient]
    stores. A method, whatever it returns, leaves the receiver's struct as
    it was and the world as its one exchange left it; what it returns
    depends on the handle and on the world only, not on the calls made
    before; and the request it sends depends on its arguments only. *)
Theorem client_is_stateless :
  (forall (conn : rpcClient), c (NewClient conn) = conn) /\
  (forall (o : operation Ctx) st,
     self (snd (invoke exchange GasEstimates UserOperationReceipt HashLookupResult o st))
       = self st /\
     world (snd (invoke exchange GasEstimates UserOperationReceipt HashLookupResult o st))
       = snd (exchange (c (self st)) (callCtx (requestOf o)) (callMethod (requestOf o))
                (callArgs (requestOf o)) (world st)) /\
     last (calls (snd (invoke exchange GasEstimates UserOperationReceipt HashLookupResult o st)))
       = Some (requestOf o)) /\
  (forall (o : operation Ctx) st1 st2,
     self st1 = self st2 -> world st1 = world st2 ->
     fst (invoke exchange GasEstimates UserOperationReceipt HashLookupResult o st1)
       = fst (invoke exchange GasEstimates UserOperationReceipt HashLookupResult o st2)).
Proof.
  split; [reflexivity|split].
  - intros o st. rewrite invoke_state. cbn [after self world calls].
    split; [reflexivity|split; [reflexivity|]].
    rewrite last_snoc. destruct o; reflexivity.
  - intros o [s1 w1 l1] [s2 w2 l2]. cbn [self world]. intros -> ->.
    destruct o; unfold_methods; unfold CallContext, CallContextNil, roundTrip, bind, ret;
      cbn [self world calls];
      destruct (exchange _ _ _ _ _) as [[err|[[code message]|] [raw|]] w]; try reflexivity;
      destruct (Unmarshal raw _) as [x [err|]]; try reflexivity;
      destruct (String.length x =? 0)%nat; reflexivity.
Qed.

(** *** The mempool dump *)

Lemma BundlerDumpMempool_eq st ctx (entryPoint : common.Address)
    (ops : slice (option UserOperation)) (st1 : State World Ctx rpcClient) :
  CallContext exchange ctx (zero : slice (option UserOperation)) "debug_bundler_dumpMempool"
    [ArgAddress entryPoint] st = ((ops, None), st1) ->
  BundlerDumpMempool exchange ctx entryPoint st
  = ((mk_slice (map ToUserOperation (elems ops)), None), st1).
Proof.
  intros Hcall. unfold BundlerDumpMempool, bind, ret. rewrite Hcall.
  unfold len. rewrite convertFrom_make. reflexivity.
Qed.


(** C10. [ToUserOperation] is defined on every receiver: nil gives nil, and
    a wire operation gives an operation with the same fields, a nil
    big-number field giving a nil integer. So when the call of
    [debug_bundler_dumpMempool] succeeds with the list [ops],
    [BundlerDumpMempool] returns a slice of the length of [ops] whose
    element [i] is the conversion of element [i] of [ops]. *)
Theorem ToUserOperation_total_order_preserved :
  ToUserOperation None = None /\
  (forall uo : UserOperation,
     exists u : userop.UserOperation,
       ToUserOperation (Some uo) = Some u /\
       userop.Sender u = Sender uo /\ userop.Nonce u = Nonce uo /\
       userop.InitCode u = InitCode uo /\ userop.CallData u = CallData uo /\
       userop.CallGasLimit u = CallGasLimit uo /\
       userop.VerificationGasLimit u = VerificationGasLimit uo /\
       userop.PreVerificationGas u = PreVerificationGas uo /\
       userop.MaxFeePerGas u = MaxFeePerGas uo /\
       userop.MaxPriorityFeePerGas u = MaxPriorityFeePerGas uo /\
       userop.PaymasterAndData u = PaymasterAndData uo /\
       userop.Signature u = Signature uo) /\
  (forall (sender : common.Address) (initCode callData paymasterAndData signature : bytes),
     ToUserOperation
       (Some (mkUserOperation sender None initCode callData None None None None None
                paymasterAndData signature))
     = Some (userop.mkUserOperation sender None initCode callData None None None None None
               paymasterAndData signature)) /\
  (forall st ctx (entryPoint : common.Address) (ops : slice (option UserOperation))
          (st1 : State World Ctx rpcClient),
     CallContext exchange ctx (zero : slice (option UserOperation))
       "debug_bundler_dumpMempool" [ArgAddress entryPoint] st = ((ops, None), st1) ->
     exists uops : list (option userop.UserOperation),
       BundlerDumpMempool exchange ctx entryPoint st = ((mk_slice uops, None), st1) /\
       List.length uops = len ops /\
       forall i : nat, uops !! i = ToUserOperation <$> (elems ops !! i)).
Proof.
  split; [reflexivity|split; [|split; [reflexivity|]]].
  - intros uo. eexists. split; [reflexivity|]. cbn. repeat split.
  - intros st ctx entryPoint ops st1 Hcall.
    exists (map ToUserOperation (elems ops)).
    split; [apply BundlerDumpMempool_eq; exact Hcall|].
    split; [unfold len; apply length_map|].
    intros i. apply list_lookup_fmap.
Qed.

End ClientProperties.

(** * The wire format round trip *)

(** C5. A valid user operation, encoded in the wire format and decoded as
    an element of the mempool dump is decoded, comes back equal in every
    field and with no error; no integer field loses precision. *)
Theorem wire_roundtrip (op : userop.UserOperation) :
  valid op = true ->
  decodeUserOperation (encodeUserOperation op) = (Some op, None).
Proof.
  unfold valid. intros Hv.
  repeat (apply andb_true_iff in Hv as [Hv ?]).
  unfold decodeUserOperation, encodeUserOperation, marshalUserOperation.
  cbn [Unmarshal ptr_Unmarshaler UserOperation_Unmarshaler zero].
  rewrite (decodeMembers_fields _ _ _ _ _ _ _ _ _ _ _
             (userop.Sender op) (userop.Nonce op) (userop.CallGasLimit op)
             (userop.VerificationGasLimit op) (userop.PreVerificationGas op)
             (userop.MaxFeePerGas op) (userop.MaxPriorityFeePerGas op)
             (userop.InitCode op) (userop.CallData op) (userop.PaymasterAndData op)
             (userop.Signature op));
    try apply Unmarshal_marshalBytes; try (apply Unmarshal_marshalBig; assumption);
    try apply Unmarshal_Address_MarshalText.
  apply (f_equal (fun x => (x, None))). apply ToUserOperation_wireOf.
Qed.

(** * Behaviour at the edges *)

(** A result of JSON null leaves the string empty: no bundle was sent. *)
Example BundlerSendBundleNow_null :
  fst (BundlerSendBundleNow scripted.exchange tt (scripted.start [Reply None (Some json.JNull)]))
  = (None, None).
Proof. reflexivity. Qed.

(** [HexToHash] reports no error: text that is not hexadecimal gives the
    bytes decoded before the first bad digit, here none. *)
Example HexToHash_malformed :
  common.data (common.HexToHash "0xzz") = repeat x00 32 /\
  common.data (common.HexToHash "0x1") = repeat x00 31 ++ [x01].
Proof. split; reflexivity. Qed.

(** Outside the 256-bit unsigned range the text [EncodeBig] writes is
    rejected by [Big.UnmarshalText]. *)
Example Big_UnmarshalText_out_of_range :
  hexutil.Big_UnmarshalText (hexutil.EncodeBig (2 ^ 256)) 0
    = (0, Some (DecError ErrBig256Range)) /\
  hexutil.Big_UnmarshalText (hexutil.EncodeBig (-1)) 0
    = (0, Some (DecError ErrMissingPrefix)) /\
  hexutil.Big_UnmarshalText "0x01" 0 = (0, Some (DecError ErrLeadingZero)).
Proof. repeat split; vm_compute; reflexivity. Qed.

(** A mempool dump of null is an empty list; a null element of the list is
    a nil operation. *)
Example BundlerDumpMempool_null :
  fst (BundlerDumpMempool scripted.exchange tt scripted.entryPoint
         (scripted.start [Reply None (Some json.JNull)]))
    = (mk_slice [], None) /\
  fst (BundlerDumpMempool scripted.exchange tt scripted.entryPoint
         (scripted.start [Reply None (Some (json.JArray [json.JNull]))]))
    = (mk_slice [None], None).
Proof. split; reflexivity. Qed.

(** Member names are matched without regard to case, and members the
    struct does not have are skipped. *)
Example decode_folded_names :
  decodeUserOperation
    (json.JObject [("NONCE"%string, json.JString "0x2a"); ("extra"%string, json.JBool true)])
  = (Some (userop.mkUserOperation common.zeroAddress (Some 42) [] [] None None None None None
             [] []), None).
Proof. reflexivity. Qed.

(** * The theorems at concrete inputs *)


(** A null result is not reported as absent: both lookups return a pointer
    that is not nil, to a struct that has nothing in it, and the same one
    they return for the empty object; a response without a result is
    reported as an error. *)
Lemma GetUserOperation_null_is_not_nil :
  fst (GetUserOperationReceipt scripted.exchange scripted.passThrough tt scripted.hash
         (scripted.start [Reply None (Some json.JNull)]))
    = (Some (scripted.mkPassThrough []), None) /\
  fst (GetUserOperationReceipt scripted.exchange scripted.passThrough tt scripted.hash
         (scripted.start [Reply None (Some json.JNull)]))
    <> (None, None) /\
  fst (GetUserOperationByHash scripted.exchange scripted.passThrough tt scripted.hash
         (scripted.start [Reply None (Some json.JNull)]))
    <> (None, None) /\
  fst (GetUserOperationReceipt scripted.exchange scripted.passThrough tt scripted.hash
         (scripted.start [Reply None (Some json.JNull)]))
    = fst (GetUserOperationReceipt scripted.exchange scripted.passThrough tt scripted.hash
             (scripted.start [Reply None (Some (json.JObject []))])) /\
  fst (GetUserOperationReceipt scripted.exchange scripted.passThrough tt scripted.hash
         (scripted.start [Reply None None]))
    = (None, Some ErrNoResult).
Proof. repeat split; discriminate. Qed.

Lemma GetUserOperation_null_result_witness :
  fst (GetUserOperationReceipt scripted.exchange scripted.passThrough tt scripted.hash
         (scripted.start [Reply None (Some json.JNull)]))
    = (Some zero, None) /\
  fst (GetUserOperationByHash scripted.exchange scripted.passThrough tt scripted.hash
         (scripted.start [Reply None None]))
    = (None, Some ErrNoResult).
Proof.
  split.
  - destruct (GetUserOperation_null_result scripted.World unit unit scripted.exchange
                scripted.passThrough scripted.passThrough
                (scripted.start [Reply None (Some json.JNull)]) tt scripted.hash)
      as (Hnull & _); [reflexivity|reflexivity|].
    apply (Hnull []). reflexivity.
  - destruct (GetUserOperation_null_result scripted.World unit unit scripted.exchange
                scripted.passThrough scripted.passThrough
                (scripted.start [Reply None None]) tt scripted.hash)
      as (_ & _ & _ & Hnone & _); [reflexivity|reflexivity|].
    apply (Hnone []). reflexivity.
Defined.



Lemma wire_roundtrip_witness :
  valid scripted.wideOp = true /\
  decodeUserOperation (encodeUserOperation scripted.wideOp) = (Some scripted.wideOp, None).
Proof. split; [reflexivity|apply (wire_roundtrip scripted.wideOp); reflexivity]. Defined.


Lemma ChainId_decodes_hex_witness :
  fst (ChainId scripted.exchange tt (scripted.start [Reply None (Some (json.JString "0x89"))]))
    = (Some 137, None).
Proof.
  apply (proj1 (ChainId_decodes_hex scripted.World unit unit scripted.exchange)
           (scripted.start [Reply None (Some (json.JString "0x89"))]) tt "0x89"%string 137 []
           eq_refl eq_refl).
Defined.

Lemma errors_pass_through_witness :
  fst (invoke scripted.exchange scripted.passThrough scripted.passThrough scripted.passThrough
         (OpBundlerDumpMempool tt scripted.entryPoint)
         (scripted.start [Reply (Some (-32602, "invalid entry point"%string)) None]))
    = (RUserOperations nil_slice, Some (jsonError (-32602) "invalid entry point")) /\
  isNil (fst (fst (invoke scripted.exchange scripted.passThrough scripted.passThrough
                     scripted.passThrough (OpGetUserOperationReceipt tt scripted.hash)
                     (scripted.start [Failed (TransportError "context canceled")]))))
    = true.
Proof.
  split; [reflexivity|].
  apply (proj2 (proj2 (errors_pass_through scripted.World unit unit scripted.exchange
                         scripted.passThrough scripted.passThrough scripted.passThrough
                         (OpGetUserOperationReceipt tt scripted.hash)
                         (scripted.start [Failed (TransportError "context canceled")]))));
    [discriminate|reflexivity].
Defined.

Lemma client_is_stateless_witness :
  fst (invoke scripted.exchange scripted.passThrough scripted.passThrough scripted.passThrough
         (OpChainId tt) (scripted.start [Reply None (Some (json.JString "0x1"))]))
  = fst (invoke scripted.exchange scripted.passThrough scripted.passThrough scripted.passThrough
           (OpChainId tt)
           (scripted.resume [mkCall tt "debug_bundler_clearState" []]
              [Reply None (Some (json.JString "0x1"))])).
Proof.
  apply (proj2 (proj2 (client_is_stateless scripted.World unit unit scripted.exchange
                         scripted.passThrough scripted.passThrough scripted.passThrough))
           (OpChainId tt)); reflexivity.
Defined.

Lemma ToUserOperation_total_order_preserved_witness :
  exists uops : list (option userop.UserOperation),
    BundlerDumpMempool scripted.exchange tt scripted.entryPoint
      (scripted.start
         [Reply None (Some (json.JArray [json.JNull; wireObject scripted.opText]))])
    = ((mk_slice uops, None),
       scripted.resume [mkCall tt "debug_bundler_dumpMempool" [ArgAddress scripted.entryPoint]]
         []) /\
    List.length uops = 2%nat /\
    forall i : nat,
      uops !! i = ToUserOperation <$> ([None; Some (wireOf scripted.op)] !! i).
Proof.
  apply (proj2 (proj2 (proj2 (ToUserOperation_total_order_preserved scripted.World unit unit
                                scripted.exchange)))
           (scripted.start
              [Reply None (Some (json.JArray [json.JNull; wireObject scripted.opText]))])
           tt scripted.entryPoint (mk_slice [None; Some (wireOf scripted.op)])).
  vm_compute. reflexivity.
Defined.

(** * Further properties of the code *)

(** ** More on the library models *)

(** A string of [2 * n] hexadecimal digits decodes to [n] bytes. *)
Lemma hex_Decode_allNibbles (n : nat) :
  forall raw : string,
    String.length raw = (2 * n)%nat -> hexutil.allNibbles raw = true ->
    snd (hex.Decode raw) = None /\ List.length (fst (hex.Decode raw)) = n.
Proof.
  induction n as [|n IH]; intros raw Hlen Hnib.
  - destruct raw; [split; reflexivity|discriminate].
  - destruct raw as [|p [|q rest]]; cbn [String.length] in Hlen; try lia.
    cbn [hexutil.allNibbles] in Hnib. unfold hexutil.decodeNibble in Hnib.
    cbn [hex.Decode].
    destruct (hex.fromHexChar p) as [a|]; [|discriminate].
    destruct (hex.fromHexChar q) as [b|]; [|discriminate].
    destruct (IH rest ltac:(lia) Hnib) as [Herr Hout].
    destruct (hex.Decode rest) as [out err]. cbn [fst snd] in *.
    split; [exact Herr|cbn [List.length]; lia].
Qed.

(** A failed [UnmarshalFixedJSON] leaves the array as it was. *)
Lemma UnmarshalFixedJSON_error (typ : string) (input : option string) (len : nat)
    (out out' : bytes) (e : error) :
  hexutil.UnmarshalFixedJSON typ input len out = (out', Some e) -> out' = out.
Proof.
  unfold hexutil.UnmarshalFixedJSON, hexutil.UnmarshalFixedText.
  destruct input as [s|]; [|intros [= <- _]; reflexivity].
  destruct (hexutil.checkText s true) as [raw|e0]; [|intros [= <- _]; reflexivity].
  destruct (negb _); [intros [= <- _]; reflexivity|].
  destruct (negb _); [intros [= <- _]; reflexivity|].
  cbn [hexutil.wrapTypeError]. discriminate.
Qed.

(** What a successful [UnmarshalFixedJSON] has read: a [0x] prefix and
    exactly [2 * len] hexadecimal digits, decoded into the array. *)
Lemma UnmarshalFixedJSON_success (typ : string) (s : string) (len : nat) (out out' : bytes) :
  (0 < len)%nat ->
  hexutil.UnmarshalFixedJSON typ (Some s) len out = (out', None) ->
  hexutil.has0xPrefix s = true /\
  String.length s = (2 + 2 * len)%nat /\
  hexutil.allNibbles (hexutil.drop2 s) = true /\
  out' = fst (hex.Decode (hexutil.drop2 s)) /\
  List.length out' = len.
Proof.
  intros Hpos. unfold hexutil.UnmarshalFixedJSON, hexutil.UnmarshalFixedText, hexutil.checkText.
  destruct s as [|c0 s0]; cbn [String.length Nat.eqb].
  - cbn. destruct len; [lia|]. cbn. discriminate.
  - destruct (hexutil.has0xPrefix (String c0 s0)) eqn:Hpre; [|cbn; discriminate].
    destruct s0 as [|c1 rest]; [discriminate Hpre|].
    cbn [hexutil.drop2 String.length].
    destruct (Nat.eqb_spec (Nat.modulo (String.length rest) 2) 0) as [Heven|_];
      [|cbn; discriminate].
    destruct (Nat.eqb_spec (Nat.div (String.length rest) 2) len) as [Hdiv|_];
      [|cbn; discriminate].
    cbn [negb]. destruct (hexutil.allNibbles rest) eqn:Hnib; [|cbn; discriminate].
    cbn [negb hexutil.wrapTypeError]. intros [= <-].
    assert (Hlen : String.length rest = (2 * len)%nat).
    { rewrite (Nat.div_mod_eq (String.length rest) 2), Heven, Hdiv. lia. }
    destruct (hex_Decode_allNibbles len rest Hlen Hnib) as [_ Hout].
    repeat split; [lia|exact Hout].
Qed.

(** The value of at most [k] digits is below [16 ^ k]. *)
Lemma nibbles_bound (s : string) :
  forall (a d : N),
    hexutil.nibbles s a = Some d ->
    (d < (a + 1) * 16 ^ N.of_nat (String.length s))%N.
Proof.
  induction s as [|ch s IH]; intros a d; cbn [hexutil.nibbles String.length].
  - intros [= <-]. cbn. lia.
  - unfold hexutil.decodeNibble.
    destruct (hex.fromHexChar ch) as [nib|] eqn:Hch; [|discriminate].
    intros Hd. apply IH in Hd.
    assert (Hnib : (nib < 16)%N).
    { unfold hex.fromHexChar in Hch.
      repeat match type of Hch with
      | (if ?b then _ else _) = _ => destruct b eqn:?
      end; try discriminate; injection Hch as <-;
      repeat match goal with
      | H : (_ && _)%bool = true |- _ => apply andb_true_iff in H as [? ?]
      | H : (_ <=? _)%N = true |- _ => apply N.leb_le in H
      end; lia. }
    rewrite Nat2N.inj_succ, N.pow_succ_r'.
    eapply N.lt_le_trans; [exact Hd|]. nia.
Qed.

(** [Big.UnmarshalText] never leaves a number outside the unsigned 256-bit
    range in a variable that held one inside it. *)
Lemma Big_UnmarshalText_range (s : string) (b : Z) :
  0 <= b < 2 ^ 256 -> 0 <= fst (hexutil.Big_UnmarshalText s b) < 2 ^ 256.
Proof.
  intros Hb. unfold hexutil.Big_UnmarshalText.
  destruct (hexutil.checkNumberText s) as [raw|e]; [|exact Hb].
  destruct (Nat.ltb_spec 64 (String.length raw)) as [_|Hlen]; [exact Hb|].
  destruct (hexutil.nibbles raw 0) as [dec|] eqn:Hdec; [|exact Hb].
  cbn [fst]. apply nibbles_bound in Hdec.
  assert (Hpow : (16 ^ N.of_nat (String.length raw) <= 16 ^ 64)%N).
  { apply N.pow_le_mono_r; lia. }
  change (16 ^ 64)%N with (Z.to_N (2 ^ 256)) in Hpow. lia.
Qed.

(** [FromHex] of the text [Encode] writes gives the bytes back. *)
Lemma FromHex_Encode (b : bytes) : common.FromHex (hexutil.Encode b) = b.
Proof.
  unfold common.FromHex, common.has0xPrefix, hexutil.Encode, hexutil.prefix0x.
  cbn [hexutil.has0xPrefix hexutil.drop2].
  change (Ascii.eqb "0" "0" && (Ascii.eqb "x" "x" || Ascii.eqb "x" "X")) with true.
  cbv iota. rewrite hex_Encode_length.
  replace (Nat.modulo (2 * List.length b) 2) with 0%nat
    by (symmetry; rewrite Nat.mul_comm; apply Nat.Div0.mod_mul).
  cbn [Nat.eqb]. unfold common.Hex2Bytes, hex.DecodeString.
  rewrite hex_Decode_Encode. reflexivity.
Qed.

Lemma SetBytes_short (n : nat) (b : bytes) :
  (List.length b <= n)%nat -> common.SetBytes n b = repeat x00 (n - List.length b) ++ b.
Proof.
  intros Hlen. unfold common.SetBytes.
  destruct (Nat.ltb_spec n (List.length b)) as [Hlt|_]; [lia|reflexivity].
Qed.

Lemma SetBytes_long (n : nat) (b : bytes) :
  (n < List.length b)%nat -> common.SetBytes n b = skipn (List.length b - n) b.
Proof.
  intros Hlen. unfold common.SetBytes.
  destruct (Nat.ltb_spec n (List.length b)) as [_|Hge]; [|lia].
  rewrite length_skipn.
  replace (n - (List.length b - (List.length b - n)))%nat with 0%nat by lia.
  reflexivity.
Qed.

Lemma fixedBytes_eq {n : nat} (h h' : common.fixedBytes n) :
  common.data h = common.data h' -> h = h'.
Proof.
  destruct h as [l Hl], h' as [l' Hl']. cbn [common.data proj1_sig].
  intros ->. f_equal. apply proof_irrel.
Qed.

(** ** More on decoding the wire shape *)

Lemma text16_aux_length_ge (fuel : nat) :
  forall (n : N) (acc : string),
    (String.length acc <= String.length (hexutil.text16_aux fuel n acc))%nat.
Proof.
  induction fuel as [|fuel IH]; intros n acc; cbn [hexutil.text16_aux]; [lia|].
  destruct (n / 16 =? 0)%N; [cbn [String.length]; lia|].
  etransitivity; [|apply IH]. cbn [String.length]. lia.
Qed.

Lemma text16_aux_length_lower (fuel : nat) :
  forall (k : nat) (n : N) (acc : string),
    (n < 16 ^ N.of_nat fuel)%N -> (16 ^ N.of_nat k <= n)%N ->
    (String.length acc + S k <= String.length (hexutil.text16_aux fuel n acc))%nat.
Proof.
  induction fuel as [|fuel IH]; intros k n acc Hn Hk.
  - change (16 ^ N.of_nat 0)%N with 1%N in Hn.
    assert (0 < 16 ^ N.of_nat k)%N by (apply N.neq_0_lt_0, N.pow_nonzero; discriminate). lia.
  - cbn [hexutil.text16_aux].
    rewrite Nat2N.inj_succ, N.pow_succ_r' in Hn.
    destruct k as [|k].
    + destruct (n / 16 =? 0)%N; [cbn [String.length]; lia|].
      etransitivity; [|apply text16_aux_length_ge]. cbn [String.length]. lia.
    + rewrite Nat2N.inj_succ, N.pow_succ_r' in Hk.
      assert (Hq : (16 ^ N.of_nat k <= n / 16)%N).
      { apply N.div_le_lower_bound; [discriminate|exact Hk]. }
      assert (Hpos : (0 < 16 ^ N.of_nat k)%N)
        by (apply N.neq_0_lt_0, N.pow_nonzero; discriminate).
      destruct (N.eqb_spec (n / 16)%N 0%N) as [Hz|_]; [lia|].
      etransitivity; [|apply (IH k); [apply N.Div0.div_lt_upper_bound; exact Hn|exact Hq]].
      cbn [String.length]. lia.
Qed.

Lemma text16_long (n : N) : (2 ^ 256 <= n)%N -> (64 < String.length (hexutil.text16 n))%nat.
Proof.
  intros Hn. unfold hexutil.text16.
  pose proof (text16_aux_length_lower _ 64 n EmptyString (text16_fuel n)) as H.
  cbn [String.length] in H. apply H. exact Hn.
Qed.

(** Outside the unsigned 256-bit range, the text [EncodeBig] writes is
    rejected whatever the variable held. *)
Lemma Big_UnmarshalText_EncodeBig_invalid (z b : Z) :
  ~ (0 <= z < 2 ^ 256) -> snd (hexutil.Big_UnmarshalText (hexutil.EncodeBig z) b) <> None.
Proof.
  intros Hz. unfold hexutil.EncodeBig.
  destruct z as [|q|q]; [lia| |cbn; discriminate].
  cbn [Z.sgn]. remember (Z.pos q) as n eqn:Hn.
  destruct (text16_aux_head _ (Z.to_N n) EmptyString ltac:(lia) (text16_fuel _))
    as (d & rest & Htext & Hd).
  fold (hexutil.text16 (Z.to_N n)) in Htext.
  assert (Hlen : (64 < String.length (hexutil.text16 (Z.to_N n)))%nat).
  { apply text16_long. change (2 ^ 256)%N with (Z.to_N (2 ^ 256)). lia. }
  unfold hexutil.Big_UnmarshalText, hexutil.checkNumberText, hexutil.prefix0x.
  cbn [String.length Nat.eqb hexutil.has0xPrefix hexutil.drop2].
  change (Ascii.eqb "0" "0" && (Ascii.eqb "x" "x" || Ascii.eqb "x" "X")) with true.
  cbn [negb]. rewrite Htext in *.
  assert (Hne : Ascii.eqb d "0" = false) by (apply Ascii.eqb_neq; exact Hd).
  rewrite Hne, andb_false_r.
  destruct (Nat.ltb_spec 64 (String.length (String d rest))) as [_|Hle]; [|lia].
  discriminate.
Qed.

Lemma wrapTypeError_some (err : option error) (typ : string) :
  err <> None -> hexutil.wrapTypeError err typ <> None.
Proof. destruct err as [[]|]; cbn; congruence. Qed.

(** A number outside the range fails to decode into a [*hexutil.Big],
    whatever the pointer held. *)
Lemma Unmarshal_marshalBig_invalid (p old : option Z) :
  validBig p = false -> snd (Unmarshal (marshalBig p) old) <> None.
Proof.
  destruct p as [z|]; [|discriminate]. cbn [validBig]. intros Hz.
  assert (Hout : ~ (0 <= z < 2 ^ 256)).
  { intros [Hlo Hhi]. apply Z.leb_le in Hlo. apply Z.ltb_lt in Hhi.
    rewrite Hlo, Hhi in Hz. discriminate. }
  cbn [marshalBig Unmarshal ptr_Unmarshaler Big_Unmarshaler zero json.asString
       hexutil.Big_UnmarshalJSON].
  pose proof (Big_UnmarshalText_EncodeBig_invalid z
                (match old with Some x => x | None => 0 end) Hout) as Herr.
  destruct (hexutil.Big_UnmarshalText _ _) as [x err]. cbn [snd] in *.
  apply wrapTypeError_some. exact Herr.
Qed.

(** A [*hexutil.Big] that held nothing or a number of the range holds
    nothing or a number of the range after any decoding, failed or not. *)
Lemma Unmarshal_Big_valid (v : json.value) (p : option Z) :
  validBig p = true -> validBig (fst (Unmarshal v p)) = true.
Proof.
  intros Hp.
  assert (Hold : 0 <= match p with Some x => x | None => 0 end < 2 ^ 256).
  { destruct p as [z|]; [|lia]. cbn [validBig] in Hp.
    apply andb_true_iff in Hp as [Hlo Hhi].
    apply Z.leb_le in Hlo. apply Z.ltb_lt in Hhi. lia. }
  assert (Hjson : forall input,
             0 <= fst (hexutil.Big_UnmarshalJSON input
                         (match p with Some x => x | None => 0 end)) < 2 ^ 256).
  { intros [s|]; cbn [hexutil.Big_UnmarshalJSON]; [|exact Hold].
    pose proof (Big_UnmarshalText_range s _ Hold) as Hr.
    destruct (hexutil.Big_UnmarshalText s _) as [x err]. exact Hr. }
  destruct v; cbn [Unmarshal ptr_Unmarshaler Big_Unmarshaler zero]; try reflexivity;
    (match goal with
     | |- context [hexutil.Big_UnmarshalJSON ?i ?b] =>
         specialize (Hjson i); destruct (hexutil.Big_UnmarshalJSON i b) as [x err]
     end;
     cbn [fst validBig] in *;
     apply andb_true_iff; split; [apply Z.leb_le|apply Z.ltb_lt]; lia).
Qed.

(** The members of a JSON array decode one by one. *)
Lemma unmarshalElems_ok {T : Type} `{Unmarshaler T} (vs : list json.value) :
  forall xs : list T,
    unmarshalElems vs = (xs, None) ->
    Forall2 (fun v x => Unmarshal v zero = (x, None)) vs xs.
Proof.
  induction vs as [|v vs IH]; intros xs; cbn [unmarshalElems].
  - intros [= <-]. constructor.
  - destruct (Unmarshal v zero) as [x [err|]] eqn:Hv; [discriminate|].
    destruct (unmarshalElems vs) as [xs' err'] eqn:Hvs.
    intros [= <- ->]. constructor; [exact Hv|]. apply IH. reflexivity.
Qed.

Lemma unmarshalElems_fails {T : Type} `{Unmarshaler T} (vs : list json.value) :
  Exists (fun v => snd (Unmarshal v (zero (T := T))) <> None) vs ->
  snd (unmarshalElems (T := T) vs) <> None.
Proof.
  induction 1 as [v vs Hv|v vs _ IH]; cbn [unmarshalElems].
  - destruct (Unmarshal v zero) as [x [err|]]; [discriminate|]. contradiction.
  - destruct (Unmarshal v zero) as [x [err|]]; [discriminate|].
    destruct (unmarshalElems vs) as [xs err']. exact IH.
Qed.

Lemma unmarshalElems_Forall {T : Type} `{Unmarshaler T} (P : T -> Prop)
    (vs : list json.value) :
  (forall v, P (fst (Unmarshal v zero))) ->
  Forall P (fst (unmarshalElems (T := T) vs)).
Proof.
  intros HP. induction vs as [|v vs IH]; cbn [unmarshalElems]; [constructor|].
  specialize (HP v).
  destruct (Unmarshal v zero) as [x [err|]]; cbn [fst] in *.
  - repeat constructor. exact HP.
  - destruct (unmarshalElems vs) as [xs err']. cbn [fst] in *. constructor; assumption.
Qed.

(** *** The fields of the struct, one at a time *)







(** Nil, or an operation whose numbers are in the unsigned 256-bit
    range. *)
Definition validPtr (p : option userop.UserOperation) : bool :=
  match p with
  | None => true
  | Some u => valid u
  end.

Ltac split_fieldMatch key :=
  repeat match goal with
  | |- context [if json.fieldMatch key ?n then _ else _] =>
      destruct (json.fieldMatch key n) eqn:?; cbv beta iota
  end.







(** Decoding a member keeps the numbers of the struct in the range,
    whether it succeeds or not. *)
Lemma setField_valid (key : string) (v : json.value) (uo : UserOperation) :
  validPtr (ToUserOperation (Some uo)) = true ->
  validPtr (ToUserOperation (Some (fst (setField key v uo)))) = true.
Proof.
  destruct uo. unfold setField, decodeField, validPtr, ToUserOperation, valid, hexutil.ToInt.
  cbn [userop.Nonce userop.CallGasLimit userop.VerificationGasLimit
       userop.PreVerificationGas userop.MaxFeePerGas userop.MaxPriorityFeePerGas
       Nonce CallGasLimit VerificationGasLimit PreVerificationGas MaxFeePerGas
       MaxPriorityFeePerGas].
  intros Hv. repeat (apply andb_true_iff in Hv as [Hv ?]).
  split_fieldMatch key;
    try match goal with
    | |- context [Unmarshal v ?old] =>
        try pose proof (Unmarshal_Big_valid v old ltac:(assumption));
        destruct (Unmarshal v old) as [x err]
    end;
    cbn [fst Nonce CallGasLimit VerificationGasLimit PreVerificationGas MaxFeePerGas
         MaxPriorityFeePerGas] in *;
    repeat (apply andb_true_iff; split); assumption.
Qed.

Lemma decodeMembers_valid (ms : list (string * json.value)) :
  forall uo : UserOperation,
    validPtr (ToUserOperation (Some uo)) = true ->
    validPtr (ToUserOperation (Some (fst (decodeMembers ms uo)))) = true.
Proof.
  induction ms as [|[key v] ms IH]; intros uo Huo; cbn [decodeMembers]; [exact Huo|].
  pose proof (setField_valid key v uo Huo) as Hset.
  destruct (setField key v uo) as [uo1 [err|]]; cbn [fst] in *; [exact Hset|].
  apply IH. exact Hset.
Qed.

(** Whatever JSON value is decoded into a [*UserOperation], the pointer
    is nil or the numbers of its struct are in the range. *)
Lemma Unmarshal_UserOperation_valid (v : json.value) :
  validPtr (ToUserOperation (fst (Unmarshal v (None : option UserOperation)))) = true.
Proof.
  destruct v; cbn [Unmarshal ptr_Unmarshaler UserOperation_Unmarshaler zero fst];
    try reflexivity.
  pose proof (decodeMembers_valid members zeroUserOperation eq_refl) as H.
  destruct (decodeMembers members zeroUserOperation) as [uo err]. exact H.
Qed.

(** *** Operations in and out of the range *)

Lemma Unmarshal_encodeUserOperation (u : userop.UserOperation) :
  valid u = true ->
  Unmarshal (encodeUserOperation u) (None : option UserOperation) = (Some (wireOf u), None).
Proof.
  unfold valid. intros Hv.
  repeat (apply andb_true_iff in Hv as [Hv ?]).
  unfold encodeUserOperation, marshalUserOperation.
  cbn [Unmarshal ptr_Unmarshaler UserOperation_Unmarshaler zero].
  rewrite (decodeMembers_fields _ _ _ _ _ _ _ _ _ _ _
             (userop.Sender u) (userop.Nonce u) (userop.CallGasLimit u)
             (userop.VerificationGasLimit u) (userop.PreVerificationGas u)
             (userop.MaxFeePerGas u) (userop.MaxPriorityFeePerGas u)
             (userop.InitCode u) (userop.CallData u) (userop.PaymasterAndData u)
             (userop.Signature u));
    try apply Unmarshal_marshalBytes; try (apply Unmarshal_marshalBig; assumption);
    try apply Unmarshal_Address_MarshalText.
  reflexivity.
Qed.

Ltac step_member :=
  match goal with
  | |- context [setField ?k ?v (mkUserOperation ?a1 ?a2 ?a3 ?a4 ?a5 ?a6 ?a7 ?a8 ?a9 ?a10 ?a11)] =>
      let t := eval cbv beta iota delta [setField]
               in (setField k v (mkUserOperation a1 a2 a3 a4 a5 a6 a7 a8 a9 a10 a11)) in
      change (setField k v (mkUserOperation a1 a2 a3 a4 a5 a6 a7 a8 a9 a10 a11)) with t
  end;
  repeat match goal with
  | |- context [json.fieldMatch ?k ?name] =>
      let b := eval vm_compute in (json.fieldMatch k name) in
      change (json.fieldMatch k name) with b
  end;
  cbv beta iota; unfold decodeField;
  match goal with
  | |- context [@Unmarshal ?T ?I ?v ?old] =>
      let E := fresh "E" in
      destruct (@Unmarshal T I v old) as [? [?|]] eqn:E
  end;
  cbv beta iota; [cbn [snd]; discriminate|].

(** An operation with a number outside the range does not survive the
    wire format: decoding its encoding fails. *)
Lemma Unmarshal_encodeUserOperation_invalid (u : userop.UserOperation) :
  valid u = false ->
  snd (Unmarshal (encodeUserOperation u) (None : option UserOperation)) <> None.
Proof.
  destruct u as [sender nonce initCode callData callGasLimit verificationGasLimit
                   preVerificationGas maxFeePerGas maxPriorityFeePerGas paymasterAndData
                   signature].
  unfold valid, encodeUserOperation, marshalUserOperation, wireOf.
  cbn [userop.Sender userop.Nonce userop.InitCode userop.CallData userop.CallGasLimit
       userop.VerificationGasLimit userop.PreVerificationGas userop.MaxFeePerGas
       userop.MaxPriorityFeePerGas userop.PaymasterAndData userop.Signature
       Sender Nonce InitCode CallData CallGasLimit VerificationGasLimit PreVerificationGas
       MaxFeePerGas MaxPriorityFeePerGas PaymasterAndData Signature].
  intros Hv.
  cbn [Unmarshal ptr_Unmarshaler UserOperation_Unmarshaler zero].
  match goal with
  | |- snd (let (x, err) := ?d in _) <> None =>
      assert (Hd : snd d <> None); [|destruct d as [x err]; exact Hd]
  end.
  unfold zeroUserOperation. cbn [decodeMembers].
  do 11 step_member.
  repeat (apply andb_false_iff in Hv as [Hv|Hv]);
    match goal with
    | E : Unmarshal (marshalBig ?p) ?old = (_, None), H : validBig ?p = false |- _ =>
        pose proof (Unmarshal_marshalBig_invalid p old H) as Hbad;
        rewrite E in Hbad; exact Hbad
    end.
Qed.

Lemma unmarshalElems_encoded (us : list userop.UserOperation) :
  Forall (fun u => valid u = true) us ->
  unmarshalElems (T := option UserOperation) (map encodeUserOperation us)
  = (map (fun u => Some (wireOf u)) us, None).
Proof.
  induction 1 as [|u us Hu _ IH]; [reflexivity|].
  cbn [map unmarshalElems].
  change (zero (T := option UserOperation)) with (None : option UserOperation).
  rewrite (Unmarshal_encodeUserOperation u Hu), IH. reflexivity.
Qed.

Lemma unmarshalElems_addresses (addrs : list common.Address) :
  unmarshalElems (T := common.Address)
    (map (fun a => json.JString (common.Address_MarshalText a)) addrs)
  = (addrs, None).
Proof.
  induction addrs as [|a addrs IH]; [reflexivity|].
  cbn [map unmarshalElems]. rewrite Unmarshal_Address_MarshalText, IH. reflexivity.
Qed.

(** A [*UserOperation] is nil after a decoding exactly when the value was
    JSON null. *)
Lemma Unmarshal_ptr_nil (v : json.value) (x : option UserOperation) (err : option error) :
  Unmarshal v (None : option UserOperation) = (x, err) -> (x = None <-> v = json.JNull).
Proof.
  destruct v; cbn [Unmarshal ptr_Unmarshaler];
    try (destruct (Unmarshal _ _) as [y e]; intros [= <- _]; split; discriminate).
  intros [= <- _]. split; reflexivity.
Qed.

Lemma ToUserOperation_nil (x : option UserOperation) : ToUserOperation x = None <-> x = None.
Proof. destruct x; cbn; split; congruence. Qed.

(** ** Connecting, and the calls of a connected client *)
Section MoreClientProperties.

Variables World Ctx rpcClient : Type.
Variable Background : Ctx.
Variable rpcDialContext : Ctx -> string -> World -> res rpcClient * World.
Variable exchange : rpcClient -> Ctx -> string -> list arg -> World -> response * World.
Variables GasEstimates UserOperationReceipt HashLookupResult : Type.
Context {GasEstimates_Unmarshaler : Unmarshaler GasEstimates}.
Context {UserOperationReceipt_Unmarshaler : Unmarshaler UserOperationReceipt}.
Context {HashLookupResult_Unmarshaler : Unmarshaler HashLookupResult}.

Implicit Types (st : State World Ctx rpcClient) (ctx : Ctx).

(** X1. [DialContext] returns either a client and no error, or no client
    and the error of [rpc.DialContext], never both and never neither; it
    changes the world only as the dialling did; the client it returns holds
    the dialled connection, so that every method called on it makes its
    exchange on that connection. [Dial] is [DialContext] with the
    background context. *)
Theorem DialContext_client_or_error ctx (rawurl : string) (w w1 : World)
    (cl : option (RpcClient rpcClient)) (err : option error) :
  DialContext rpcDialContext ctx rawurl w = ((cl, err), w1) ->
  w1 = snd (rpcDialContext ctx rawurl w) /\
  Dial Background rpcDialContext rawurl w = DialContext rpcDialContext Background rawurl w /\
  match cl, err with
  | Some r, None =>
      fst (rpcDialContext ctx rawurl w) = Ok (c r) /\
      forall (o : operation Ctx) (log : list (call Ctx)),
        world (snd (invoke exchange GasEstimates UserOperationReceipt HashLookupResult o
                      (mkState r w1 log)))
        = snd (exchange (c r) (callCtx (requestOf o)) (callMethod (requestOf o))
                 (callArgs (requestOf o)) w1)
  | None, Some e => fst (rpcDialContext ctx rawurl w) = Err e
  | _, _ => False
  end.
Proof.
  unfold DialContext, Dial.
  destruct (rpcDialContext ctx rawurl w) as [[conn|e] w'] eqn:Hdial;
    intros [= <- <- <-]; (split; [reflexivity|split; [reflexivity|]]).
  - split; [reflexivity|]. intros o log. rewrite invoke_state. reflexivity.
  - reflexivity.
Qed.

(** *** [SendUserOperation] *)

(** X2. Whenever [SendUserOperation] returns an error, the hash beside it
    is the zero hash: a failed call or a failed decoding leaves nothing in
    the result. *)
Theorem SendUserOperation_error_zero_hash st ctx (op : option userop.UserOperation)
    (entryPoint : common.Address) (h : common.Hash) (e : error) :
  fst (SendUserOperation exchange ctx op entryPoint st) = (h, Some e) ->
  h = common.zeroHash.
Proof.
  unfold SendUserOperation, CallContext, bind, ret. rewrite roundTrip_eq.
  destruct (fst (exchange _ _ _ _ _)) as [err|[[code message]|] [raw|]];
    cbn [fst zero Hash_Unmarshaler]; try (intros [= <- _]; reflexivity).
  cbn [Unmarshal Hash_Unmarshaler]. unfold common.Hash_UnmarshalJSON.
  destruct (hexutil.UnmarshalFixedJSON _ _ _ _) as [out err] eqn:Hout.
  cbn [fst]. intros [= <- ->].
  apply UnmarshalFixedJSON_error in Hout. subst out. apply store_data.
Qed.

(** X3. [SendUserOperation] accepts a hash only in full: when it returns no
    error for a response that is the JSON string [s], then [s] is [0x]
    followed by exactly 64 hexadecimal digits, and the hash returned is the
    32 bytes those digits spell. *)
Theorem SendUserOperation_strict st ctx (op : option userop.UserOperation)
    (entryPoint : common.Address) (s : string) (w : World) (h : common.Hash) :
  exchange (c (self st)) ctx "eth_sendUserOperation"
    [ArgUserOperation op; ArgAddress entryPoint] (world st)
    = (Reply None (Some (json.JString s)), w) ->
  fst (SendUserOperation exchange ctx op entryPoint st) = (h, None) ->
  hexutil.has0xPrefix s = true /\
  String.length s = 66%nat /\
  hexutil.allNibbles (hexutil.drop2 s) = true /\
  common.data h = fst (hex.Decode (hexutil.drop2 s)).
Proof.
  intros Hex Hres.
  pose proof (CallContext_reply _ _ _ exchange st ctx (zero : common.Hash) _ _ _ _ Hex) as Hfst.
  unfold SendUserOperation, bind, ret in Hres.
  destruct (CallContext exchange ctx _ _ _ st) as [[result err] st1].
  cbn [fst] in Hfst, Hres. injection Hres as -> ->.
  cbn [Unmarshal Hash_Unmarshaler json.asString] in Hfst.
  unfold common.Hash_UnmarshalJSON in Hfst.
  destruct (hexutil.UnmarshalFixedJSON _ _ _ _) as [out err] eqn:Hout.
  injection Hfst as Hh Herr. subst h err.
  apply UnmarshalFixedJSON_success in Hout; [|unfold common.HashLength; lia].
  destruct Hout as (Hpre & Hlen & Hnib & Hdec & Hout).
  repeat split; try assumption.
  unfold common.store. destruct (decide _) as [H|H]; [exact Hdec|contradiction].
Qed.

(** *** [BundlerSendBundleNow] *)

(** X4. [BundlerSendBundleNow] takes any hexadecimal text for a hash: when
    the response is the text of the byte string [b], it returns a pointer
    to [b] padded with zero bytes on the left to 32 bytes, or the last 32
    bytes of a longer [b], and no error. So the text of a hash gives that
    hash back, and the bare text [0x] gives a pointer to the zero hash, not
    the nil pointer. *)
Theorem BundlerSendBundleNow_pads st ctx (b : bytes) (w : World) :
  exchange (c (self st)) ctx "debug_bundler_sendBundleNow" [] (world st)
    = (Reply None (Some (json.JString (hexutil.Encode b))), w) ->
  exists h : common.Hash,
    fst (BundlerSendBundleNow exchange ctx st) = (Some h, None) /\
    ((List.length b <= 32)%nat ->
       common.data h = repeat x00 (32 - List.length b) ++ b) /\
    ((32 < List.length b)%nat -> common.data h = skipn (List.length b - 32) b) /\
    (forall h0 : common.Hash, b = common.data h0 -> h = h0).
Proof.
  intros Hex.
  pose proof (CallContext_reply _ _ _ exchange st ctx (zero : string) _ _ _ _ Hex) as Hfst.
  unfold BundlerSendBundleNow, bind, ret.
  destruct (CallContext exchange ctx _ _ _ st) as [[result err] st1].
  cbn in Hfst. injection Hfst as -> ->.
  exists (common.HexToHash (hexutil.Encode b)).
  assert (Hdata : common.data (common.HexToHash (hexutil.Encode b))
                  = common.SetBytes common.HashLength b).
  { unfold common.HexToHash. rewrite BytesToHash_data, FromHex_Encode. reflexivity. }
  split; [reflexivity|]. rewrite Hdata. unfold common.HashLength.
  split; [apply SetBytes_short|split; [apply SetBytes_long|]].
  intros h0 ->. apply fixedBytes_eq. rewrite Hdata.
  pose proof (proj2_sig h0) as Hlen. unfold common.HashLength in *.
  rewrite SetBytes_short by (unfold common.data; lia).
  unfold common.data in *. rewrite Hlen. rewrite Nat.sub_diag. reflexivity.
Qed.

(** *** [BundlerDumpMempool] *)

(** X5. A server that answers [debug_bundler_dumpMempool] with the wire
    encodings of valid operations gets them back from [BundlerDumpMempool],
    each behind a pointer, equal field for field and in the same order. *)
Theorem BundlerDumpMempool_roundtrip st ctx (entryPoint : common.Address)
    (us : list userop.UserOperation) (w : World) :
  Forall (fun u => valid u = true) us ->
  exchange (c (self st)) ctx "debug_bundler_dumpMempool" [ArgAddress entryPoint] (world st)
    = (Reply None (Some (json.JArray (map encodeUserOperation us))), w) ->
  fst (BundlerDumpMempool exchange ctx entryPoint st) = (mk_slice (map Some us), None).
Proof.
  intros Hus Hex.
  pose proof (CallContext_reply _ _ _ exchange st ctx (zero : slice (option UserOperation))
                _ _ _ _ Hex) as Hfst.
  cbn [Unmarshal slice_Unmarshaler] in Hfst.
  rewrite (unmarshalElems_encoded us Hus) in Hfst.
  destruct (CallContext exchange ctx _ _ _ st) as [[ops err] st1] eqn:Hcall.
  cbn [fst] in Hfst. injection Hfst as -> ->.
  rewrite (BundlerDumpMempool_eq _ _ _ _ _ _ _ _ _ Hcall). cbn [fst elems].
  rewrite map_map. do 2 f_equal. apply map_ext. intros u. apply ToUserOperation_wireOf.
Qed.

(** X6. The dump is all or nothing: when one element of the server's list
    fails to decode, [BundlerDumpMempool] returns the nil slice and an
    error, and none of the operations that did decode. *)
Theorem BundlerDumpMempool_all_or_nothing st ctx (entryPoint : common.Address)
    (vs : list json.value) (w : World) :
  exchange (c (self st)) ctx "debug_bundler_dumpMempool" [ArgAddress entryPoint] (world st)
    = (Reply None (Some (json.JArray vs)), w) ->
  Exists (fun v => snd (Unmarshal v (None : option UserOperation)) <> None) vs ->
  exists e : error,
    fst (BundlerDumpMempool exchange ctx entryPoint st) = (nil_slice, Some e).
Proof.
  intros Hex Hbad.
  pose proof (CallContext_reply _ _ _ exchange st ctx (zero : slice (option UserOperation))
                _ _ _ _ Hex) as Hfst.
  cbn [Unmarshal slice_Unmarshaler] in Hfst.
  pose proof (unmarshalElems_fails (T := option UserOperation) vs Hbad) as Herr.
  destruct (unmarshalElems vs) as [xs [e|]]; [|contradiction].
  unfold BundlerDumpMempool, bind, ret.
  destruct (CallContext exchange ctx _ _ _ st) as [[ops err] st1].
  cbn [fst] in Hfst. injection Hfst as -> ->. exists e. reflexivity.
Qed.

(** X7. Whatever the server sends, every operation [BundlerDumpMempool]
    returns is nil or has all its numeric fields nil or within the unsigned
    256-bit range: no negative and no wider number comes out of a dump. *)
Theorem BundlerDumpMempool_returns_valid st ctx (entryPoint : common.Address) :
  Forall (fun p => validPtr p = true)
    (elems (fst (fst (BundlerDumpMempool exchange ctx entryPoint st)))).
Proof.
  unfold BundlerDumpMempool, CallContext, bind, ret. rewrite roundTrip_eq.
  destruct (fst (exchange _ _ _ _ _)) as [err|[[code message]|] [raw|]];
    cbn [fst elems]; try constructor.
  cbn [Unmarshal slice_Unmarshaler zero].
  destruct raw; cbn [fst elems len]; try constructor.
  pose proof (unmarshalElems_Forall (T := option UserOperation)
                (fun x => validPtr (ToUserOperation x) = true) elems0
                Unmarshal_UserOperation_valid) as Hall.
  destruct (unmarshalElems elems0) as [xs [err|]]; cbn [fst elems len] in *; [constructor|].
  rewrite convertFrom_make. apply Forall_map. exact Hall.
Qed.

(** X8. When [BundlerDumpMempool] succeeds it returns a slice that is not
    nil: the empty one for a result of JSON null, and for a list one
    element for each element of the list, nil exactly where the list has
    JSON null. *)
Theorem BundlerDumpMempool_nil_elements st ctx (entryPoint : common.Address)
    (raw : json.value) (w : World) :
  exchange (c (self st)) ctx "debug_bundler_dumpMempool" [ArgAddress entryPoint] (world st)
    = (Reply None (Some raw), w) ->
  snd (fst (BundlerDumpMempool exchange ctx entryPoint st)) = None ->
  exists uops : list (option userop.UserOperation),
    fst (fst (BundlerDumpMempool exchange ctx entryPoint st)) = mk_slice uops /\
    (raw = json.JNull -> uops = []) /\
    (forall vs : list json.value,
       raw = json.JArray vs ->
       List.length uops = List.length vs /\
       forall (i : nat) (v : json.value),
         vs !! i = Some v -> (uops !! i = Some None <-> v = json.JNull)).
Proof.
  intros Hex.
  pose proof (CallContext_reply _ _ _ exchange st ctx (zero : slice (option UserOperation))
                _ _ _ _ Hex) as Hfst.
  destruct (CallContext exchange ctx _ _ _ st) as [[ops err] st1] eqn:Hcall.
  cbn [fst] in Hfst.
  unfold BundlerDumpMempool at 1, bind, ret. rewrite Hcall.
  destruct err as [e|]; [discriminate|]. intros _.
  rewrite (BundlerDumpMempool_eq _ _ _ _ _ _ _ _ _ Hcall). cbn [fst].
  eexists. split; [reflexivity|]. split.
  - intros ->. cbn in Hfst. injection Hfst as ->. reflexivity.
  - intros vs ->. cbn [Unmarshal slice_Unmarshaler] in Hfst.
    destruct (unmarshalElems vs) as [xs err] eqn:Hvs.
    injection Hfst as -> <-.
    apply unmarshalElems_ok in Hvs. cbn [elems].
    split; [rewrite length_map; symmetry; exact (Forall2_length _ _ _ Hvs)|].
    intros i v Hv.
    destruct (Forall2_lookup_l _ _ _ _ _ Hvs Hv) as (x & Hx & Hdec).
    rewrite list_lookup_fmap, Hx. cbn.
    change (zero (T := option UserOperation)) with (None : option UserOperation) in Hdec.
    rewrite <- (Unmarshal_ptr_nil v x None Hdec), <- ToUserOperation_nil.
    split; [intros [= ->]; reflexivity|intros ->; reflexivity].
Qed.

(** *** [SupportedEntryPoints] *)

(** X9. [SupportedEntryPoints] returns the slice as it was decoded: the
    nil slice and no error for a result of JSON null, and for a list of
    address texts those addresses, in order. *)
Theorem SupportedEntryPoints_result st ctx (raw : json.value) (w : World) :
  exchange (c (self st)) ctx "eth_supportedEntryPoints" [] (world st)
    = (Reply None (Some raw), w) ->
  (raw = json.JNull -> fst (SupportedEntryPoints exchange ctx st) = (nil_slice, None)) /\
  (forall addrs : list common.Address,
     raw = json.JArray (map (fun a => json.JString (common.Address_MarshalText a)) addrs) ->
     fst (SupportedEntryPoints exchange ctx st) = (mk_slice addrs, None)).
Proof.
  intros Hex.
  pose proof (CallContext_reply _ _ _ exchange st ctx (zero : slice common.Address)
                _ _ _ _ Hex) as Hfst.
  unfold SupportedEntryPoints, bind, ret.
  destruct (CallContext exchange ctx _ _ _ st) as [[entryPoints err] st1].
  cbn [fst] in Hfst. split.
  - intros ->. cbn in Hfst. injection Hfst as -> ->. reflexivity.
  - intros addrs ->. cbn [Unmarshal slice_Unmarshaler] in Hfst.
    rewrite unmarshalElems_addresses in Hfst. injection Hfst as -> ->. reflexivity.
Qed.

(** *** [ChainId] *)

(** X10. A chain id that [ChainId] returns without error is never negative
    and never wider than 256 bits. *)
Theorem ChainId_range st ctx (n : Z) :
  fst (ChainId exchange ctx st) = (Some n, None) -> 0 <= n < 2 ^ 256.
Proof.
  unfold ChainId, CallContext, bind, ret. rewrite roundTrip_eq.
  destruct (fst (exchange _ _ _ _ _)) as [err|[[code message]|] [raw|]];
    cbn [fst]; try discriminate.
  cbn [Unmarshal Big_Unmarshaler zero].
  destruct (json.asString raw) as [s|]; cbn [hexutil.Big_UnmarshalJSON]; [|discriminate].
  pose proof (Big_UnmarshalText_range s 0 ltac:(lia)) as Hr.
  destruct (hexutil.Big_UnmarshalText s 0) as [x err]. cbn [fst] in *.
  destruct (hexutil.wrapTypeError err hexutil.bigT); [discriminate|].
  intros [= <-]. exact Hr.
Qed.

(** X11. Every chain id of the unsigned 256-bit range that a server sends
    as minimal [0x]-prefixed hexadecimal text comes back from [ChainId]
    unchanged. *)
Theorem ChainId_roundtrip st ctx (n : Z) (w : World) :
  0 <= n < 2 ^ 256 ->
  exchange (c (self st)) ctx "eth_chainId" [] (world st)
    = (Reply None (Some (json.JString (hexutil.EncodeBig n))), w) ->
  fst (ChainId exchange ctx st) = (Some n, None).
Proof.
  intros Hn Hex.
  pose proof (CallContext_reply _ _ _ exchange st ctx (zero : Z) _ _ _ _ Hex) as Hfst.
  unfold ChainId, bind, ret.
  destruct (CallContext exchange ctx _ _ _ st) as [[result err] st1].
  cbn [fst Unmarshal zero Big_Unmarshaler json.asString hexutil.Big_UnmarshalJSON] in Hfst |- *.
  rewrite (Big_UnmarshalText_EncodeBig n 0 Hn) in Hfst. cbn [hexutil.wrapTypeError] in Hfst.
  injection Hfst as -> ->. reflexivity.
Qed.

(** *** The debug calls without a result *)

(** X12. [BundlerClearState] and [BundlerSetBundlingMode] do not look at
    the result: they return no error exactly when the response carries no
    error and some result, whatever JSON value it is, and an error in every
    other case. *)
Theorem debug_calls_ignore_result st ctx (mode : string) :
  (fst (BundlerClearState exchange ctx st) = None <->
   exists raw : json.value,
     fst (exchange (c (self st)) ctx "debug_bundler_clearState" [] (world st))
       = Reply None (Some raw)) /\
  (fst (BundlerSetBundlingMode exchange ctx mode st) = None <->
   exists raw : json.value,
     fst (exchange (c (self st)) ctx "debug_bundler_setBundlingMode" [ArgString mode]
            (world st))
       = Reply None (Some raw)).
Proof.
  split; unfold BundlerClearState, BundlerSetBundlingMode, CallContextNil, bind, ret;
    rewrite roundTrip_eq;
    destruct (fst (exchange _ _ _ _ _)) as [err|[[code message]|] [raw|]]; cbn [fst];
    (split; [intros H; try discriminate H; eexists; reflexivity
            |intros [raw' H]; try discriminate H; reflexivity]).
Qed.

(** *** Calls in sequence *)



End MoreClientProperties.

(** ** The wire shape on its own *)

(** X14. The validity condition of the round trip is exact: the encoding
    of an operation decodes back to it without error if and only if each
    of its numeric fields is nil or within the unsigned 256-bit range. *)
Theorem wire_roundtrip_exact (u : userop.UserOperation) :
  decodeUserOperation (encodeUserOperation u) = (Some u, None) <-> valid u = true.
Proof.
  unfold decodeUserOperation. split.
  - intros Hdec. destruct (valid u) eqn:Hv; [reflexivity|].
    pose proof (Unmarshal_encodeUserOperation_invalid u Hv) as Hbad.
    change (zero (T := option UserOperation)) with (None : option UserOperation) in Hdec.
    destruct (Unmarshal (encodeUserOperation u) None) as [uo err].
    cbn [snd] in Hbad. injection Hdec as _ ->. congruence.
  - intros Hv.
    change (zero (T := option UserOperation)) with (None : option UserOperation).
    rewrite (Unmarshal_encodeUserOperation u Hv), ToUserOperation_wireOf. reflexivity.
Qed.

(** X15. [ToUserOperation] loses nothing: different wire operations give
    different operations, nil only comes from nil, and every operation is
    the conversion of some wire operation. *)
Theorem ToUserOperation_lossless :
  (forall a b : option UserOperation, ToUserOperation a = ToUserOperation b -> a = b) /\
  (forall a : option UserOperation, ToUserOperation a = None <-> a = None) /\
  (forall u : userop.UserOperation,
     exists uo : UserOperation, ToUserOperation (Some uo) = Some u).
Proof.
  split; [|split].
  - intros [a|] [b|]; cbn [ToUserOperation]; try discriminate; [|reflexivity].
    destruct a, b. unfold hexutil.ToInt. cbn. intros [= -> -> -> -> -> -> -> -> -> -> ->].
    reflexivity.
  - apply ToUserOperation_nil.
  - intros u. exists (wireOf u). apply ToUserOperation_wireOf.
Qed.



(** ** The further properties at concrete inputs *)

(** A dialler that reaches any address but the empty one. *)
Module connect.

Definition dial (_ : unit) (rawurl : string) (w : scripted.World) : res unit * scripted.World :=
  if (String.length rawurl =? 0)%nat then (Err (TransportError "no address"), w)
  else (Ok tt, w).

End connect.

Lemma DialContext_client_or_error_witness :
  DialContext connect.dial tt "http://localhost:4337" []
    = ((Some (NewClient tt), None), []) /\
  fst (connect.dial tt "http://localhost:4337" []) = Ok tt /\
  fst (connect.dial tt EmptyString []) = Err (TransportError "no address").
Proof.
  split; [reflexivity|split].
  - destruct (DialContext_client_or_error scripted.World unit unit tt connect.dial
                scripted.exchange scripted.passThrough scripted.passThrough
                scripted.passThrough tt "http://localhost:4337"%string [] []
                (Some (mkRpcClient tt)) None) as (_ & _ & Hconn & _); [reflexivity|].
    exact Hconn.
  - destruct (DialContext_client_or_error scripted.World unit unit tt connect.dial
                scripted.exchange scripted.passThrough scripted.passThrough
                scripted.passThrough tt EmptyString [] []
                None (Some (TransportError "no address"))) as (_ & _ & Hfail);
      [reflexivity|].
    exact Hfail.
Defined.

Lemma SendUserOperation_error_zero_hash_witness :
  fst (fst (SendUserOperation scripted.exchange tt (Some scripted.op) scripted.entryPoint
              (scripted.start [Reply None (Some (json.JString "0x12"))])))
  = common.zeroHash.
Proof.
  apply (SendUserOperation_error_zero_hash scripted.World unit unit scripted.exchange
           (scripted.start [Reply None (Some (json.JString "0x12"))]) tt
           (Some scripted.op) scripted.entryPoint _
           (FixedLengthError 2 64 "common.Hash")).
  reflexivity.
Defined.

Lemma SendUserOperation_strict_witness :
  String.length (common.Hash_MarshalText scripted.hash) = 66%nat.
Proof.
  destruct (SendUserOperation_strict scripted.World unit unit scripted.exchange
              (scripted.start
                 [Reply None (Some (json.JString (common.Hash_MarshalText scripted.hash)))])
              tt (Some scripted.op) scripted.entryPoint
              (common.Hash_MarshalText scripted.hash) [] scripted.hash)
    as (_ & Hlen & _); [reflexivity|vm_compute; reflexivity|].
  exact Hlen.
Defined.

Lemma BundlerSendBundleNow_pads_witness :
  exists h : common.Hash,
    fst (BundlerSendBundleNow scripted.exchange tt
           (scripted.start [Reply None (Some (json.JString (hexutil.Encode [x01])))]))
      = (Some h, None) /\
    common.data h = repeat x00 31 ++ [x01].
Proof.
  destruct (BundlerSendBundleNow_pads scripted.World unit unit scripted.exchange
              (scripted.start [Reply None (Some (json.JString (hexutil.Encode [x01])))])
              tt [x01] []) as (h & Hres & Hshort & _); [reflexivity|].
  exists h. split; [exact Hres|]. apply Hshort. cbn. lia.
Defined.

Lemma BundlerDumpMempool_roundtrip_witness :
  fst (BundlerDumpMempool scripted.exchange tt scripted.entryPoint
         (scripted.start
            [Reply None
               (Some (json.JArray (map encodeUserOperation [scripted.wideOp; scripted.op])))]))
  = (mk_slice (map Some [scripted.wideOp; scripted.op]), None).
Proof.
  apply (BundlerDumpMempool_roundtrip scripted.World unit unit scripted.exchange
           (scripted.start
              [Reply None
                 (Some (json.JArray
                          (map encodeUserOperation [scripted.wideOp; scripted.op])))])
           tt scripted.entryPoint [scripted.wideOp; scripted.op] []).
  - repeat constructor.
  - reflexivity.
Defined.

Lemma BundlerDumpMempool_all_or_nothing_witness :
  exists e : error,
    fst (BundlerDumpMempool scripted.exchange tt scripted.entryPoint
           (scripted.start
              [Reply None
                 (Some (json.JArray [wireObject scripted.opText; json.JString "zz"]))]))
    = (nil_slice, Some e).
Proof.
  apply (BundlerDumpMempool_all_or_nothing scripted.World unit unit scripted.exchange
           (scripted.start
              [Reply None
                 (Some (json.JArray [wireObject scripted.opText; json.JString "zz"]))])
           tt scripted.entryPoint [wireObject scripted.opText; json.JString "zz"] []).
  - reflexivity.
  - right. left. vm_compute. discriminate.
Defined.

Lemma BundlerDumpMempool_nil_elements_witness :
  exists uops : list (option userop.UserOperation),
    fst (fst (BundlerDumpMempool scripted.exchange tt scripted.entryPoint
                (scripted.start
                   [Reply None
                      (Some (json.JArray [json.JNull; wireObject scripted.opText]))])))
      = mk_slice uops /\
    List.length uops = 2%nat /\
    uops !! 0%nat = Some None.
Proof.
  destruct (BundlerDumpMempool_nil_elements scripted.World unit unit scripted.exchange
              (scripted.start
                 [Reply None (Some (json.JArray [json.JNull; wireObject scripted.opText]))])
              tt scripted.entryPoint
              (json.JArray [json.JNull; wireObject scripted.opText]) [])
    as (uops & Hres & _ & Harr); [reflexivity|vm_compute; reflexivity|].
  exists uops. split; [exact Hres|].
  destruct (Harr _ eq_refl) as [Hlen Hnil].
  split; [exact Hlen|]. apply (Hnil 0%nat json.JNull); reflexivity.
Defined.

Lemma SupportedEntryPoints_result_witness :
  fst (SupportedEntryPoints scripted.exchange tt
         (scripted.start
            [Reply None
               (Some (json.JArray
                        (map (fun a => json.JString (common.Address_MarshalText a))
                           [scripted.entryPoint; scripted.sender])))]))
  = (mk_slice [scripted.entryPoint; scripted.sender], None).
Proof.
  destruct (SupportedEntryPoints_result scripted.World unit unit scripted.exchange
              (scripted.start
                 [Reply None
                    (Some (json.JArray
                             (map (fun a => json.JString (common.Address_MarshalText a))
                                [scripted.entryPoint; scripted.sender])))])
              tt
              (json.JArray
                 (map (fun a => json.JString (common.Address_MarshalText a))
                    [scripted.entryPoint; scripted.sender])) [])
    as [_ Hlist]; [reflexivity|].
  apply Hlist. reflexivity.
Defined.

Lemma ChainId_range_witness : 0 <= 137 < 2 ^ 256.
Proof.
  apply (ChainId_range scripted.World unit unit scripted.exchange
           (scripted.start [Reply None (Some (json.JString "0x89"))]) tt 137).
  reflexivity.
Defined.

Lemma ChainId_roundtrip_witness :
  fst (ChainId scripted.exchange tt
         (scripted.start [Reply None (Some (json.JString (hexutil.EncodeBig (2 ^ 256 - 1))))]))
  = (Some (2 ^ 256 - 1), None).
Proof.
  apply (ChainId_roundtrip scripted.World unit unit scripted.exchange
           (scripted.start
              [Reply None (Some (json.JString (hexutil.EncodeBig (2 ^ 256 - 1))))])
           tt (2 ^ 256 - 1) []).
  - split; [discriminate|reflexivity].
  - reflexivity.
Defined.

